(** * book-sync: the reading-position-bounded context accumulator

    A shallow embedding of the context store (bookContextStore), the chat
    store (aiAssistantStore), the chat hook (useAIChat), the PDF side of the
    extraction hook (useTextExtraction) and the assistant route
    (api/ai-assistant) up to its call of the provider, with the properties the
    specification states about them.

    Modelling conventions.
    - A JavaScript string is a [string]; one character stands for one UTF-16
      code unit, so [String.length] is [.length].
    - Page numbers and percent buckets are integers ([Z]). A position bound is
      a [number]: an integer or [-Infinity], the one other value this code
      computes by itself ([Math.max()] of no arguments). [NaN], [+Infinity]
      and fractions are outside the model.
    - A zustand store is its state record; an action is a function from state
      to state. A [Map] is a [gmap]; an array is a [list].
    - An async function is cut at its [await]s: the code up to the first
      [await] is one function, and each resumption is a handler that takes the
      settled value. The event loop runs one of them at a time. *)

From Stdlib Require Import ZArith Lia List Ascii String Sorted Permutation.
From stdpp Require Import base option list gmap strings pretty.
Import ListNotations.

Local Open Scope string_scope.

(** ** Strings *)

Definition nl : string := String (ascii_of_nat 10) EmptyString.

(** The white space that [String.prototype.trim] and the regular expression
    class [\s] recognise, among the code units below 256. *)
Definition isWhitespace (c : ascii) : bool :=
  let n := nat_of_ascii c in
  ((9 <=? n) && (n <=? 13) || (n =? 32) || (n =? 160))%nat.

Fixpoint trimStart (s : string) : string :=
  match s with
  | EmptyString => EmptyString
  | String c r => if isWhitespace c then trimStart r else s
  end.

(** [trimEnd] drops the trailing white space: a character is kept when
    something that is kept follows it, or when it is not white space. *)
Fixpoint trimEnd (s : string) : string :=
  match s with
  | EmptyString => EmptyString
  | String c r =>
      match trimEnd r with
      | EmptyString => if isWhitespace c then EmptyString else String c EmptyString
      | r' => String c r'
      end
  end.

Definition trim (s : string) : string := trimEnd (trimStart s).

(** [Array.prototype.join] on an array of strings. *)
Fixpoint join (sep : string) (l : list string) : string :=
  match l with
  | [] => ""
  | [x] => x
  | x :: r => x ++ sep ++ join sep r
  end.

(** [s.slice(0, n)]. *)
Fixpoint slice0 (n : nat) (s : string) : string :=
  match n, s with
  | S k, String c r => String c (slice0 k r)
  | _, _ => EmptyString
  end.

(** [s.slice(n)]. *)
Fixpoint sliceFrom (n : nat) (s : string) : string :=
  match n, s with
  | S k, String _ r => sliceFrom k r
  | _, _ => s
  end.

Definition startsWith (p s : string) : bool := String.prefix p s.

(** [s.split('\n')]. *)
Fixpoint splitLines (s : string) : list string :=
  match s with
  | EmptyString => [EmptyString]
  | String c r =>
      if Ascii.eqb c (ascii_of_nat 10) then EmptyString :: splitLines r
      else match splitLines r with
           | [] => [String c EmptyString]
           | l :: ls => String c l :: ls
           end
  end.

(** [s.replace(/\s+/g, ' ')]: every maximal run of white space becomes one
    space. *)
Fixpoint collapseWhitespace (s : string) : string :=
  match s with
  | EmptyString => EmptyString
  | String c r =>
      if isWhitespace c then
        match r with
        | String d _ =>
            if isWhitespace d then collapseWhitespace r
            else String " " (collapseWhitespace r)
        | EmptyString => String " " EmptyString
        end
      else String c (collapseWhitespace r)
  end.

(** ** Numbers *)

Inductive number : Type :=
  | NegInfinity
  | Int (z : Z).

(** [a <= b] for an integer [a] and a bound [b]. *)
Definition leNumber (a : Z) (b : number) : bool :=
  match b with
  | NegInfinity => false
  | Int z => (a <=? z)%Z
  end.

Definition MAX_SAFE_INTEGER : Z := 9007199254740991.

(** [Math.max(...l)]: [-Infinity] when there is no argument. *)
Fixpoint mathMax (l : list Z) : number :=
  match l with
  | [] => NegInfinity
  | x :: r =>
      match mathMax r with
      | NegInfinity => Int x
      | Int m => Int (Z.max x m)
      end
  end.

(** [String(n)] inside a template literal. *)
Definition numberToString (n : number) : string :=
  match n with
  | NegInfinity => "-Infinity"
  | Int z => pretty z
  end.

(** ** Arrays *)

(** [Array.prototype.findIndex]: the first index whose element satisfies
    [p], or [-1]. *)
Fixpoint findIndexFrom {A} (p : A -> bool) (l : list A) (i : Z) : Z :=
  match l with
  | [] => (-1)%Z
  | x :: r => if p x then i else findIndexFrom p r (i + 1)%Z
  end.

Definition findIndex {A} (p : A -> bool) (l : list A) : Z := findIndexFrom p l 0.

(** [Array.prototype.sort] with a comparator: a stable sort. [a] goes before
    [b] when the comparator is negative, and elements that compare equal keep
    their order. *)
Fixpoint sortInsert {A} (cmp : A -> A -> Z) (x : A) (l : list A) : list A :=
  match l with
  | [] => [x]
  | y :: r => if (cmp x y <=? 0)%Z then x :: y :: r else y :: sortInsert cmp x r
  end.

Fixpoint jsSort {A} (cmp : A -> A -> Z) (l : list A) : list A :=
  match l with
  | [] => []
  | x :: r => sortInsert cmp x (jsSort cmp r)
  end.

(** [l.slice(-n)]: the last [n] elements. *)
Definition sliceLast {A} (n : nat) (l : list A) : list A :=
  drop (length l - n) l.

(** A JavaScript [Set] of numbers, in insertion order. *)
Definition setHas (x : Z) (s : list Z) : bool := existsb (Z.eqb x) s.
Definition setAdd (x : Z) (s : list Z) : list Z := if setHas x s then s else s ++ [x].
Definition setDelete (x : Z) (s : list Z) : list Z := List.filter (fun y => negb (Z.eqb x y)) s.

(** ** The context store (bookContextStore) *)

Inductive pageKey : Type :=
  | PageNum (n : Z)
  | PageStr (s : string).

Record BookContextChunk : Type := {
  pageOrChapter : pageKey;
  text : string;
  timestamp : Z
}.

Record BookContextState : Type := {
  contextChunks : gmap string (list BookContextChunk);
  currentBookId : option string;
  currentPosition : number
}.

Definition initialBookContextState : BookContextState :=
  {| contextChunks := ∅; currentBookId := None; currentPosition := Int 0 |}.

(** Strict equality [===] on keys: same type and same value. *)
Definition keyStrictEq (a b : pageKey) : bool :=
  match a, b with
  | PageNum x, PageNum y => (x =? y)%Z
  | PageStr s, PageStr t => String.eqb s t
  | _, _ => false
  end.

(** ** Chat messages and the request sent to the assistant route *)

Module Chat.
Inductive Role : Type := user | assistant.

Record ChatMessage : Type := {
  id : string;
  role : Role;
  content : string;
  timestamp : Z
}.

Definition roleName (r : Role) : string :=
  match r with user => "user" | assistant => "assistant" end.
End Chat.

(** The JSON body of the POST to [/api/ai-assistant] ([ChatRequest]). *)
Module Request.
Record ChatRequest : Type := {
  message : string;
  bookContext : string;
  bookTitle : string;
  bookAuthor : option string;
  currentPosition : number;
  chatHistory : list (Chat.Role * string)
}.
End Request.

(** ** The chat store (aiAssistantStore) *)

Record AIAssistantState : Type := {
  chatHistory : gmap string (list Chat.ChatMessage);
  isLoading : bool;
  streamingResponse : string;
  error : option string
}.

Definition initialAIAssistantState : AIAssistantState :=
  {| chatHistory := ∅; isLoading := false; streamingResponse := ""; error := None |}.

Definition getChatHistory (state : AIAssistantState) (bookId : string) : list Chat.ChatMessage :=
  default [] (chatHistory state !! bookId).

Definition addMessage (bookId : string) (message : Chat.ChatMessage)
    (state : AIAssistantState) : AIAssistantState :=
  let existing := default [] (chatHistory state !! bookId) in
  {| chatHistory := <[bookId := (existing ++ [message])%list]> (chatHistory state);
     isLoading := isLoading state;
     streamingResponse := streamingResponse state;
     error := error state |}.

Definition setLoading (loading : bool) (state : AIAssistantState) : AIAssistantState :=
  {| chatHistory := chatHistory state;
     isLoading := loading;
     streamingResponse := streamingResponse state;
     error := error state |}.

Definition setStreamingResponse (response : string) (state : AIAssistantState)
  : AIAssistantState :=
  {| chatHistory := chatHistory state;
     isLoading := isLoading state;
     streamingResponse := response;
     error := error state |}.

Definition appendStreamingResponse (chunk : string) (state : AIAssistantState)
  : AIAssistantState :=
  {| chatHistory := chatHistory state;
     isLoading := isLoading state;
     streamingResponse := streamingResponse state ++ chunk;
     error := error state |}.

Definition setError (e : option string) (state : AIAssistantState) : AIAssistantState :=
  {| chatHistory := chatHistory state;
     isLoading := isLoading state;
     streamingResponse := streamingResponse state;
     error := e |}.

Definition clearChat (bookId : string) (state : AIAssistantState) : AIAssistantState :=
  {| chatHistory := delete bookId (chatHistory state);
     isLoading := isLoading state;
     streamingResponse := streamingResponse state;
     error := error state |}.

(** [now] is what [Date.now()] returns; the two reads in the message literal
    are taken at the same millisecond. An empty string is falsy. *)
Definition finalizeStreamingMessage (bookId : string) (now : Z)
    (state : AIAssistantState) : AIAssistantState :=
  if String.eqb (streamingResponse state) "" then state
  else
    let message :=
      {| Chat.id := "assistant-" ++ pretty now;
         Chat.role := Chat.assistant;
         Chat.content := streamingResponse state;
         Chat.timestamp := now |} in
    setStreamingResponse "" (addMessage bookId message state).

(** ** The assistant route (api/ai-assistant, POST) *)

Module Gateway.

(** The two environment variables [getAIConfig] reads. *)
Record Env : Type := {
  GROQ_API_KEY : option string;
  OPENAI_API_KEY : option string
}.

Record AIConfig : Type := {
  provider : string;
  apiKey : string;
  baseUrl : string;
  model : string
}.

(** A variable that is unset or empty is falsy. *)
Definition truthy (v : option string) : option string :=
  match v with
  | Some s => if String.eqb s "" then None else Some s
  | None => None
  end.

Definition getAIConfig (env : Env) : option AIConfig :=
  match truthy (GROQ_API_KEY env) with
  | Some k =>
      Some {| provider := "openai-compatible"; apiKey := k;
              baseUrl := "https://api.groq.com/openai/v1/chat/completions";
              model := "llama-3.1-8b-instant" |}
  | None =>
      match truthy (OPENAI_API_KEY env) with
      | Some k =>
          Some {| provider := "openai-compatible"; apiKey := k;
                  baseUrl := "https://api.openai.com/v1/chat/completions";
                  model := "gpt-4o-mini" |}
      | None => None
      end
  end.

(** One entry of the [messages] array sent to the provider. *)
Record Message : Type := { role : string; content : string }.

Definition contextLimit : nat := 12 * 1000.

Definition systemPrompt (body : Request.ChatRequest) : string :=
  "You are a reading assistant for " ++ String (ascii_of_nat 34) (Request.bookTitle body)
    ++ String (ascii_of_nat 34)
         (match truthy (Request.bookAuthor body) with
          | Some a => " by " ++ a
          | None => ""
          end)
    ++ ". The reader is currently at position "
    ++ numberToString (Request.currentPosition body)
    ++ ". IMPORTANT: Only discuss content from the provided context. Never reveal or hint at anything beyond what's shown - no spoilers.".

Definition trimmedContext (bookContext : string) : string :=
  slice0 contextLimit bookContext.

(** The second system message: the context, cut, and the marker when cut. *)
Definition contextMessage (bookContext : string) : string :=
  "CONTEXT:" ++ nl ++ trimmedContext bookContext
    ++ (if (contextLimit <? String.length bookContext)%nat
        then nl ++ "[truncated]" else "").

Definition buildMessages (body : Request.ChatRequest) : list Message :=
  ([ {| role := "system"; content := systemPrompt body |};
     {| role := "system"; content := contextMessage (Request.bookContext body) |} ]
   ++ map (fun msg => {| role := Chat.roleName (fst msg); content := snd msg |})
        (sliceLast 6 (Request.chatHistory body))
   ++ [ {| role := "user"; content := Request.message body |} ])%list.

(** What the handler does up to its call of the provider: it answers with an
    error status, or posts [messages] to the configured provider. The relay
    of the provider's stream is not part of this model. *)
Inductive Outcome : Type :=
  | JsonError (status : Z) (error : string)
  | CallProvider (config : AIConfig) (messages : list Message).

Definition POST (authenticated : bool) (env : Env) (body : Request.ChatRequest) : Outcome :=
  if negb authenticated then JsonError 401 "Unauthorized"
  else if String.eqb (Request.message body) "" || String.eqb (Request.bookContext body) ""
  then JsonError 400 "Message and book context are required"
  else
    match getAIConfig env with
    | None =>
        JsonError 500
          "AI not configured. Add GROQ_API_KEY (recommended) or OPENAI_API_KEY to .env.local"
    | Some aiConfig => CallProvider aiConfig (buildMessages body)
    end.

End Gateway.

(** ** The host

    The two functions of the JavaScript host that the code calls on strings
    and that have no source here.

    [parseFloat]: [None] is [NaN]. The numbers of this model are integers,
    the page numbers and chapter indexes the readers file chunks under: a
    host gives [parseFloat] on the strings whose value is an integer or
    [NaN], and a string key whose value is a fraction or an infinity is
    outside the model.

    [parseContent data] is what the code gets from [JSON.parse(data).content]:
    [None] when [JSON.parse] or the read of [.content] throws, or when the
    content is missing; otherwise the content as the string that appending it
    to the streaming buffer makes of it (a string is itself), the empty
    string standing for a content that is falsy. *)
Class Host : Type := {
  parseFloat : string -> option Z;
  parseContent : string -> option string
}.

(** [parseFloat] on integer literals, for the examples: leading white space,
    an optional sign, then decimal digits up to the first character that is
    not one; [NaN] ([None]) when there is no digit; the integer read is
    rounded to the nearest double. A fraction, an exponent or [Infinity] is
    not read: this is [parseFloat] on the strings that are an integer literal
    (below the largest double) followed by nothing that continues a number. *)
Definition digitOf (c : ascii) : option Z :=
  let n := nat_of_ascii c in
  if ((48 <=? n) && (n <=? 57))%nat then Some (Z.of_nat (n - 48)) else None.

Fixpoint readDigits (s : string) (acc : option Z) : option Z :=
  match s with
  | EmptyString => acc
  | String c r =>
      match digitOf c with
      | Some d => readDigits r (Some (10 * default 0 acc + d))%Z
      | None => acc
      end
  end.

(** The double nearest to an integer, ties to the even significand; an
    integer of magnitude up to 2^53 is a double already. *)
Definition roundToDouble (z : Z) : Z :=
  let a := Z.abs z in
  if (a <=? 2 ^ 53)%Z then z
  else
    let e := (Z.log2 a - 52)%Z in
    let q := (a / 2 ^ e)%Z in
    let r := (a mod 2 ^ e)%Z in
    let half := (2 ^ (e - 1))%Z in
    let q' := if (r <? half)%Z then q
              else if (half <? r)%Z then (q + 1)%Z
              else if Z.even q then q else (q + 1)%Z in
    (Z.sgn z * (q' * 2 ^ e))%Z.

Definition parseFloatInt (s : string) : option Z :=
  roundToDouble <$>
    match trimStart s with
    | String "-" r => Z.opp <$> readDigits r None
    | String "+" r => readDigits r None
    | t => readDigits t None
    end.

(** A host for the examples: [parseFloat] as above, and a [data:] line taken
    to be its own content. *)
Definition intHost : Host :=
  {| parseFloat := parseFloatInt; parseContent := fun data => Some data |}.

Section Model.

Context `{Host}.

(** [typeof k === 'number' ? k : parseFloat(k) || 0] *)
Definition numericKey (k : pageKey) : Z :=
  match k with
  | PageNum n => n
  | PageStr s =>
      match parseFloat s with
      | Some z => if (z =? 0)%Z then 0%Z else z
      | None => 0%Z
      end
  end.

Definition chunkPos (c : BookContextChunk) : Z := numericKey (pageOrChapter c).

(** The comparator handed to [sort]: [aNum - bNum]. *)
Definition compareChunks (a b : BookContextChunk) : Z := (chunkPos a - chunkPos b)%Z.

Definition chunksOf (state : BookContextState) (bookId : string) : list BookContextChunk :=
  default [] (contextChunks state !! bookId).

Definition setCurrentBook (bookId : string) (state : BookContextState) : BookContextState :=
  let state1 :=
    {| contextChunks := contextChunks state;
       currentBookId := Some bookId;
       currentPosition := currentPosition state |} in
  match contextChunks state1 !! bookId with
  | Some _ => state1
  | None =>
      {| contextChunks := <[bookId := []]> (contextChunks state1);
         currentBookId := currentBookId state1;
         currentPosition := currentPosition state1 |}
  end.

(** The array stored for the book after [addContextChunk]. The branch on a
    missing element cannot be taken: a non-negative [findIndex] is in range. *)
Definition addToChunks (chunk : BookContextChunk) (existing : list BookContextChunk)
  : list BookContextChunk :=
  let existingIndex :=
    findIndex (fun c => keyStrictEq (pageOrChapter c) (pageOrChapter chunk)) existing in
  if (0 <=? existingIndex)%Z then
    match existing !! Z.to_nat existingIndex with
    | Some old =>
        if (String.length (text old) <? String.length (text chunk))%nat
        then <[Z.to_nat existingIndex := chunk]> existing
        else existing
    | None => existing
    end
  else jsSort compareChunks (existing ++ [chunk]).

Definition addContextChunk (bookId : string) (chunk : BookContextChunk)
    (state : BookContextState) : BookContextState :=
  let existing := chunksOf state bookId in
  {| contextChunks := <[bookId := addToChunks chunk existing]> (contextChunks state);
     currentBookId := currentBookId state;
     currentPosition := currentPosition state |}.

Definition getContextUpToPosition (state : BookContextState) (bookId : string)
    (position : number) : string :=
  let chunks := chunksOf state bookId in
  let relevantChunks := List.filter (fun chunk => leNumber (chunkPos chunk) position) chunks in
  join (nl ++ nl) (map text relevantChunks).

Definition clearContext (bookId : string) (state : BookContextState) : BookContextState :=
  {| contextChunks := delete bookId (contextChunks state);
     currentBookId := currentBookId state;
     currentPosition := currentPosition state |}.

Definition updatePosition (position : number) (state : BookContextState) : BookContextState :=
  {| contextChunks := contextChunks state;
     currentBookId := currentBookId state;
     currentPosition := position |}.

(** The bound [getFullContext] filters with. *)
Definition maxPositionOf (upToPosition : option number) : number :=
  match upToPosition with
  | Some p => p
  | None => Int MAX_SAFE_INTEGER
  end.

(** The array [relevantChunks] of [getFullContext], after its filter and its
    sort. *)
Definition relevantChunks (state : BookContextState) (bookId : string)
    (upToPosition : option number) : list BookContextChunk :=
  let chunks := chunksOf state bookId in
  let maxPosition := maxPositionOf upToPosition in
  jsSort compareChunks
    (List.filter (fun chunk => leNumber (chunkPos chunk) maxPosition) chunks).

Definition getFullContext (state : BookContextState) (bookId : string)
    (upToPosition : option number) : string :=
  join (nl ++ nl) (map text (relevantChunks state bookId upToPosition)).

Definition hasContext (state : BookContextState) (bookId : string) : bool :=
  (0 <? length (chunksOf state bookId))%nat.

(** The actions of the store, and a run of them from the initial state. *)
Inductive storeAction : Type :=
  | SetCurrentBook (bookId : string)
  | AddContextChunk (bookId : string) (chunk : BookContextChunk)
  | ClearContext (bookId : string)
  | UpdatePosition (position : number).

Definition applyAction (state : BookContextState) (a : storeAction) : BookContextState :=
  match a with
  | SetCurrentBook b => setCurrentBook b state
  | AddContextChunk b c => addContextChunk b c state
  | ClearContext b => clearContext b state
  | UpdatePosition p => updatePosition p state
  end.

Definition runStore (actions : list storeAction) : BookContextState :=
  fold_left applyAction actions initialBookContextState.

(** The two properties of a stored array that the store maintains. *)
Definition sortedChunks (l : list BookContextChunk) : Prop :=
  StronglySorted Z.le (map chunkPos l).

Definition distinctKeys (l : list BookContextChunk) : Prop :=
  NoDup (map pageOrChapter l).

(** What every run of the store keeps true of every stored array. *)
Definition storeInv (state : BookContextState) : Prop :=
  forall bookId l, contextChunks state !! bookId = Some l ->
    sortedChunks l /\ distinctKeys l.


(** ** The chat hook (useAIChat) *)

(** The options of the hook. *)
Record UseAIChatOptions : Type := {
  bookId : string;
  bookTitle : string;
  bookAuthor : option string
}.

(** The values a [sendMessage] callback has captured from the render that
    created it. *)
Record Captured : Type := {
  capturedIsLoading : bool;
  capturedPosition : number
}.

(** The state the hook works on: the two stores, the [abortControllerRef], the
    controllers created so far (a controller is its index; [aborted] lists the
    ones whose [abort()] ran) and the requests handed to [fetch], each with
    the controller of its signal. *)
Record ChatWorld : Type := {
  ai : AIAssistantState;
  books : BookContextState;
  abortControllerRef : option nat;
  controllers : nat;
  aborted : list nat;
  fetched : list (Request.ChatRequest * nat)
}.

Definition withAI (f : AIAssistantState -> AIAssistantState) (w : ChatWorld) : ChatWorld :=
  {| ai := f (ai w); books := books w; abortControllerRef := abortControllerRef w;
     controllers := controllers w; aborted := aborted w; fetched := fetched w |}.

Definition setRef (r : option nat) (w : ChatWorld) : ChatWorld :=
  {| ai := ai w; books := books w; abortControllerRef := r;
     controllers := controllers w; aborted := aborted w; fetched := fetched w |}.

Definition abort (c : nat) (w : ChatWorld) : ChatWorld :=
  {| ai := ai w; books := books w; abortControllerRef := abortControllerRef w;
     controllers := controllers w; aborted := c :: aborted w; fetched := fetched w |}.

(** [abortControllerRef.current = new AbortController()] *)
Definition newAbortController (w : ChatWorld) : ChatWorld :=
  {| ai := ai w; books := books w; abortControllerRef := Some (controllers w);
     controllers := S (controllers w); aborted := aborted w; fetched := fetched w |}.

Definition callFetch (request : Request.ChatRequest) (signal : nat) (w : ChatWorld)
  : ChatWorld :=
  {| ai := ai w; books := books w; abortControllerRef := abortControllerRef w;
     controllers := controllers w; aborted := aborted w;
     fetched := (fetched w ++ [(request, signal)])%list |}.

(** Where a [sendMessage] call is suspended. *)
Inductive Pending : Type :=
  | AwaitFetch (signal : nat)
  | AwaitRead (signal : nat).

Inductive JsError : Type :=
  | AbortError
  | TypeError (message : string)
  | OtherError (message : string).

(** How the awaited [fetch] settles, and for a response that is not ok how
    [await response.json()] and the read of [errorData.error] after it go:
    [ResponseNotOk] when the body is JSON and the field can be read
    ([None] when it is missing), [ResponseNotOkThrows] when that throws
    instead. On a body that is not JSON, [json()] rejects with a
    [SyntaxError] ([OtherError], with the parser's message); on the body
    [null], the read of [.error] throws a [TypeError]; a request aborted
    while the body is read rejects with an [AbortError]. *)
Inductive FetchSettled : Type :=
  | FetchRejected (err : JsError)
  | ResponseNotOk (errorField : option string)
  | ResponseNotOkThrows (err : JsError)
  | ResponseOk (hasBody : bool).

(** How an awaited [reader.read()] settles; [ReadValue] carries the decoded
    text. *)
Inductive ReadSettled : Type :=
  | ReadRejected (err : JsError)
  | ReadValue (decoded : string)
  | ReadDone.

Definition noContentMessage : string :=
  "No content has been read yet. Start reading to use the AI assistant!".

Definition unreachableMessage : string :=
  "Unable to reach the AI assistant. Check your connection and ensure the AI API key is configured.".

(** The [finally] block. *)
Definition finallyBlock (w : ChatWorld) : ChatWorld :=
  setRef None (withAI (setLoading false) w).

(** The [catch] block followed by the [finally] block. *)
Definition catchBlock (err : JsError) (w : ChatWorld) : ChatWorld :=
  match err with
  | AbortError => finallyBlock w
  | TypeError _ => finallyBlock (withAI (setError (Some unreachableMessage)) w)
  | OtherError m => finallyBlock (withAI (setError (Some m)) w)
  end.

(** The code of [sendMessage] up to its first [await]: the result is the new
    state and, when the call is suspended at [fetch], where. [now] is what
    [Date.now()] returns, for both reads of the message literal. A [return]
    inside the [try] runs the [finally] block. *)
Definition sendMessage (opts : UseAIChatOptions) (cap : Captured)
    (message : string) (position : option number) (now : Z) (w : ChatWorld)
  : ChatWorld * option Pending :=
  if String.eqb (trim message) "" || capturedIsLoading cap then (w, None)
  else
    let w1 := match abortControllerRef w with
              | Some c => abort c w
              | None => w
              end in
    let w2 := newAbortController w1 in
    let signal := controllers w1 in
    let userMessage :=
      {| Chat.id := "user-" ++ pretty now;
         Chat.role := Chat.user;
         Chat.content := trim message;
         Chat.timestamp := now |} in
    let w3 :=
      withAI (fun a => setStreamingResponse ""
                         (setError None
                            (setLoading true (addMessage (bookId opts) userMessage a)))) w2 in
    let effectivePosition := default (capturedPosition cap) position in
    let bookContext := getFullContext (books w3) (bookId opts) (Some effectivePosition) in
    if String.eqb bookContext "" || (String.length (trim bookContext) =? 0)%nat then
      (finallyBlock (withAI (fun a => setLoading false (setError (Some noContentMessage) a)) w3),
       None)
    else
      let history := getChatHistory (ai w3) (bookId opts) in
      let request :=
        {| Request.message := Chat.content userMessage;
           Request.bookContext := bookContext;
           Request.bookTitle := bookTitle opts;
           Request.bookAuthor := bookAuthor opts;
           Request.currentPosition := effectivePosition;
           Request.chatHistory :=
             map (fun m => (Chat.role m, Chat.content m)) (sliceLast 10 history) |} in
      (callFetch request signal w3, Some (AwaitFetch signal)).

(** The [for] loop over the lines of one decoded value; [[DONE]] finalizes
    and leaves the loop. *)
Fixpoint processLines (bookId : string) (now : Z) (lines : list string)
    (a : AIAssistantState) : AIAssistantState :=
  match lines with
  | [] => a
  | line :: rest =>
      if startsWith "data: " line then
        let data := sliceFrom 6 line in
        if String.eqb data "[DONE]" then finalizeStreamingMessage bookId now a
        else
          match parseContent data with
          | Some c =>
              if String.eqb c "" then processLines bookId now rest a
              else processLines bookId now rest (appendStreamingResponse c a)
          | None => processLines bookId now rest a
          end
      else processLines bookId now rest a
  end.

(** [text.split('\n').filter((line) => line.trim())] *)
Definition nonBlankLines (decoded : string) : list string :=
  List.filter (fun line => negb (String.eqb (trim line) "")) (splitLines decoded).

(** The resumption of [sendMessage] when its [fetch] settles, up to the first
    [reader.read()]. What is thrown on the way goes to the [catch] block. *)
Definition resumeFetch (signal : nat) (settled : FetchSettled) (w : ChatWorld)
  : ChatWorld * option Pending :=
  match settled with
  | FetchRejected err => (catchBlock err w, None)
  | ResponseNotOk errorField =>
      let m := match Gateway.truthy errorField with
               | Some e => e
               | None => "Failed to get response"
               end in
      (catchBlock (OtherError m) w, None)
  | ResponseNotOkThrows err => (catchBlock err w, None)
  | ResponseOk false => (catchBlock (OtherError "No response body") w, None)
  | ResponseOk true => (w, Some (AwaitRead signal))
  end.

(** The resumption of [sendMessage] when a [reader.read()] settles. *)
Definition resumeRead (opts : UseAIChatOptions) (signal : nat) (settled : ReadSettled)
    (now : Z) (w : ChatWorld) : ChatWorld * option Pending :=
  match settled with
  | ReadRejected err => (catchBlock err w, None)
  | ReadValue decoded =>
      (withAI (processLines (bookId opts) now (nonBlankLines decoded)) w,
       Some (AwaitRead signal))
  | ReadDone =>
      let finalResponse := streamingResponse (ai w) in
      let w1 := if String.eqb finalResponse "" then w
                else withAI (finalizeStreamingMessage (bookId opts) now) w in
      (finallyBlock w1, None)
  end.

Definition cancelRequest (w : ChatWorld) : ChatWorld :=
  match abortControllerRef w with
  | Some c => withAI (setLoading false) (setRef None (abort c w))
  | None => w
  end.

Definition clear (opts : UseAIChatOptions) (w : ChatWorld) : ChatWorld :=
  withAI (clearChat (bookId opts)) w.

(** Everything the hook does to the chat store, as one step of the event
    loop: a call of one of its callbacks, or the resumption of a suspended
    [sendMessage]. *)
Inductive ChatStep : Type :=
  | CallSendMessage (cap : Captured) (message : string) (position : option number) (now : Z)
  | SettleFetch (signal : nat) (settled : FetchSettled)
  | SettleRead (signal : nat) (settled : ReadSettled) (now : Z)
  | CallCancelRequest
  | CallClear.

Definition chatStep (opts : UseAIChatOptions) (w : ChatWorld) (s : ChatStep) : ChatWorld :=
  match s with
  | CallSendMessage cap message position now =>
      fst (sendMessage opts cap message position now w)
  | SettleFetch signal settled => fst (resumeFetch signal settled w)
  | SettleRead signal settled now => fst (resumeRead opts signal settled now w)
  | CallCancelRequest => cancelRequest w
  | CallClear => clear opts w
  end.

Definition initialChatWorld (b : BookContextState) : ChatWorld :=
  {| ai := initialAIAssistantState; books := b; abortControllerRef := None;
     controllers := 0; aborted := []; fetched := [] |}.

Definition runChat (opts : UseAIChatOptions) (w : ChatWorld) (steps : list ChatStep)
  : ChatWorld :=
  fold_left (chatStep opts) steps w.

(** What every run of the hook keeps true of the chat store: an assistant
    message in a history has content. *)
Definition noEmptyAssistant (a : AIAssistantState) : Prop :=
  forall b l m, chatHistory a !! b = Some l -> In m l ->
    Chat.role m = Chat.assistant -> Chat.content m <> "".

(** ** The extraction hook (useTextExtraction), PDF side *)

(** A PDF page: [getTextContent] gives the [str] of each item, or rejects
    ([None]). A document: [getPage] gives a page, or rejects ([None]). *)
Record PdfPage : Type := { getTextContent : option (list string) }.

Definition PdfDoc : Type := Z -> option PdfPage.

(** The state the hook works on: the context store and the two refs. *)
Record ExtractionWorld : Type := {
  store : BookContextState;
  extractionQueueRef : list Z;
  extractedPagesRef : list Z
}.

Definition initialExtractionWorld : ExtractionWorld :=
  {| store := initialBookContextState; extractionQueueRef := []; extractedPagesRef := [] |}.

Definition initializeContext (bookId : string) (w : ExtractionWorld) : ExtractionWorld :=
  {| store := setCurrentBook bookId (store w);
     extractionQueueRef := extractionQueueRef w;
     extractedPagesRef := extractedPagesRef w |}.

Definition resetExtraction (w : ExtractionWorld) : ExtractionWorld :=
  {| store := store w; extractionQueueRef := []; extractedPagesRef := [] |}.

(** One promise of [extractionPromises]: the async function started for page
    [i] is suspended at [pdfDoc.getPage(i)], or inside [extractPDFPageText] at
    [page.getTextContent()], or it has returned. A promise that has not
    settled has exactly one operation of the document in flight. *)
Inductive PageTask : Type :=
  | AwaitGetPage
  | AwaitTextContent (page : PdfPage)
  | Settled.

Definition isSettled (t : PageTask) : bool :=
  match t with Settled => true | _ => false end.

(** [extractPDFPageText] up to its [await]. *)
Definition extractPDFPageText (page : PdfPage) (pageNum : Z) (w : ExtractionWorld)
  : ExtractionWorld * PageTask :=
  if setHas pageNum (extractedPagesRef w) || setHas pageNum (extractionQueueRef w)
  then (w, Settled)
  else
    ({| store := store w;
        extractionQueueRef := setAdd pageNum (extractionQueueRef w);
        extractedPagesRef := extractedPagesRef w |},
     AwaitTextContent page).

(** [extractPDFPageText] after its [await]: the text is built and stored when
    it is not empty; a rejection is logged; the page leaves the queue. *)
Definition extractPDFPageTextResume (bookId : string) (page : PdfPage) (pageNum : Z)
    (now : Z) (w : ExtractionWorld) : ExtractionWorld :=
  let w1 :=
    match getTextContent page with
    | Some items =>
        let text := trim (collapseWhitespace (join " " items)) in
        if (0 <? String.length text)%nat then
          {| store :=
               addContextChunk bookId
                 {| pageOrChapter := PageNum pageNum;
                    text := "[Page " ++ pretty pageNum ++ "]" ++ nl ++ text;
                    timestamp := now |}
                 (store w);
             extractionQueueRef := extractionQueueRef w;
             extractedPagesRef := setAdd pageNum (extractedPagesRef w) |}
        else w
    | None => w
    end in
  {| store := store w1;
     extractionQueueRef := setDelete pageNum (extractionQueueRef w1);
     extractedPagesRef := extractedPagesRef w1 |}.

(** One call of [extractPDFPagesUpTo]: its argument, its promises (each with
    the page it was started for) and the batches it still has to await. *)
Record Invocation : Type := {
  currentPage : Z;
  extractionPromises : list (Z * PageTask);
  chunks : list (list Z)
}.

(** [for (let i = 0; i < l.length; i += 3) chunks.push(l.slice(i, i + 3))] *)
Fixpoint batchesOf3 {A} (fuel : nat) (l : list A) : list (list A) :=
  match fuel, l with
  | S k, _ :: _ => take 3 l :: batchesOf3 k (drop 3 l)
  | _, _ => []
  end.

(** [extractPDFPagesUpTo] up to its first [await]. The first loop calls an
    async function for every page of [1 .. currentPage] that is neither
    extracted nor queued; each call runs at once up to its
    [await pdfDoc.getPage(i)], so the promise it returns already has that
    request in flight. The batches are cut from these promises afterwards. *)
Definition extractPDFPagesUpTo (currentPage : Z) (w : ExtractionWorld) : Invocation :=
  let candidates :=
    List.filter
      (fun i => negb (setHas i (extractedPagesRef w)) && negb (setHas i (extractionQueueRef w)))
      (seqZ 1 currentPage) in
  let extractionPromises := map (fun i => (i, AwaitGetPage)) candidates in
  {| currentPage := currentPage;
     extractionPromises := extractionPromises;
     chunks := batchesOf3 (length extractionPromises) (map fst extractionPromises) |}.

(** The number of document operations in flight. *)
Definition operationsInFlight (inv : Invocation) : nat :=
  length (List.filter (fun p => negb (isSettled (snd p))) (extractionPromises inv)).

(** The operation page [i]'s promise waits for settles, and the promise runs
    to its next [await] or to its end. *)
Definition resumeTask (pdfDoc : PdfDoc) (bookId : string) (i : Z) (now : Z)
    (t : PageTask) (w : ExtractionWorld) : ExtractionWorld * PageTask :=
  match t with
  | AwaitGetPage =>
      match pdfDoc i with
      | Some page => extractPDFPageText page i w
      | None => (w, Settled)
      end
  | AwaitTextContent page => (extractPDFPageTextResume bookId page i now w, Settled)
  | Settled => (w, Settled)
  end.

Fixpoint resumeIn (pdfDoc : PdfDoc) (bookId : string) (i : Z) (now : Z)
    (ps : list (Z * PageTask)) (w : ExtractionWorld)
  : ExtractionWorld * list (Z * PageTask) :=
  match ps with
  | [] => (w, [])
  | (j, t) :: rest =>
      if (i =? j)%Z then
        let '(w', t') := resumeTask pdfDoc bookId i now t w in (w', (j, t') :: rest)
      else
        let '(w', rest') := resumeIn pdfDoc bookId i now rest w in (w', (j, t) :: rest')
  end.

Definition taskSettled (ps : list (Z * PageTask)) (i : Z) : bool :=
  forallb (fun p => negb (fst p =? i)%Z || isSettled (snd p)) ps.

(** [await Promise.all(chunk)] returns once every promise of the batch has
    settled; the loop then goes to the next batch. *)
Fixpoint awaitChunks (ps : list (Z * PageTask)) (chunks : list (list Z)) : list (list Z) :=
  match chunks with
  | [] => []
  | chunk :: rest =>
      if forallb (taskSettled ps) chunk then awaitChunks ps rest else chunks
  end.

Definition settle (pdfDoc : PdfDoc) (bookId : string) (i : Z) (now : Z)
    (st : ExtractionWorld * Invocation) : ExtractionWorld * Invocation :=
  let '(w, inv) := st in
  let '(w', ps') := resumeIn pdfDoc bookId i now (extractionPromises inv) w in
  (w', {| currentPage := currentPage inv;
          extractionPromises := ps';
          chunks := awaitChunks ps' (chunks inv) |}).

(** The position [extractPDFPagesUpTo] computes after its last batch. *)
Definition maxExtractedPage (extractedPages : list Z) (currentPage : Z) : number :=
  if (0 <? length extractedPages)%nat
  then mathMax (List.filter (fun p => (p <=? currentPage)%Z) extractedPages)
  else Int currentPage.

(** The end of [extractPDFPagesUpTo], once no batch is left to await. *)
Definition extractPDFPagesUpToEnd (inv : Invocation) (w : ExtractionWorld) : ExtractionWorld :=
  {| store :=
       updatePosition (maxExtractedPage (extractedPagesRef w) (currentPage inv)) (store w);
     extractionQueueRef := extractionQueueRef w;
     extractedPagesRef := extractedPagesRef w |}.

(** A whole call: the operations settle in the order [schedule] gives (a page
    number and the clock at that moment); the call completes when all its
    batches have been awaited, and [None] says it is still suspended. *)
Definition runExtraction (pdfDoc : PdfDoc) (bookId : string) (currentPage : Z)
    (schedule : list (Z * Z)) (w : ExtractionWorld) : option ExtractionWorld :=
  let inv0 := extractPDFPagesUpTo currentPage w in
  let start := (w, {| currentPage := currentPage;
                      extractionPromises := extractionPromises inv0;
                      chunks := awaitChunks (extractionPromises inv0) (chunks inv0) |}) in
  let '(w', inv) :=
    fold_left (fun st ev => settle pdfDoc bookId (fst ev) (snd ev) st) schedule start in
  match chunks inv with
  | [] => Some (extractPDFPagesUpToEnd inv w')
  | _ => None
  end.

(** ** The extraction hook, EPUB side *)

(** [extractEPUBText] from its second line on. [positionKey] is the value of
    [Math.floor(percentage * 100)], whose floating-point product is not part
    of the model. [contents] is what [rendition.getContents()] returns
    ([None] when it throws, which the [catch] logs); an entry is [None] when
    it has no [document], and else its [doc.body?.innerText || '']. *)
Definition extractEPUBText (bookId : string) (contents : option (list (option string)))
    (positionKey : Z) (now : Z) (w : ExtractionWorld) : ExtractionWorld :=
  match contents with
  | None => w
  | Some entries =>
      let w1 :=
        fold_left
          (fun (w0 : ExtractionWorld) (content : option string) =>
             match content with
             | None => w0
             | Some bodyText =>
                 if (50 <? String.length (trim bodyText))%nat
                    && negb (setHas positionKey (extractedPagesRef w0))
                 then
                   {| store :=
                        addContextChunk bookId
                          {| pageOrChapter := PageNum positionKey;
                             text := "[" ++ pretty positionKey ++ "%]" ++ nl
                                       ++ slice0 3000 bodyText;
                             timestamp := now |}
                          (store w0);
                      extractionQueueRef := extractionQueueRef w0;
                      extractedPagesRef := setAdd positionKey (extractedPagesRef w0) |}
                 else w0
             end)
          entries w in
      {| store := updatePosition (Int positionKey) (store w1);
         extractionQueueRef := extractionQueueRef w1;
         extractedPagesRef := extractedPagesRef w1 |}
  end.

(** The first entry of [contents] whose text has more than 50 characters
    after trim. *)
Fixpoint firstMeaningful (entries : list (option string)) : option string :=
  match entries with
  | [] => None
  | Some bodyText :: rest =>
      if (50 <? String.length (trim bodyText))%nat then Some bodyText
      else firstMeaningful rest
  | None :: rest => firstMeaningful rest
  end.

(** [getExtractedContext]: the whole extracted text, with no bound, and the
    position. *)
Definition getExtractedContext (bookId : string) (w : ExtractionWorld) : string * number :=
  (getFullContext (store w) bookId None, currentPosition (store w)).

(** Every page in [extractedPagesRef] has a chunk filed under it for the
    book. *)
Definition extractedHaveChunks (bookId : string) (w : ExtractionWorld) : Prop :=
  forall i, In i (extractedPagesRef w) ->
    exists c, In c (chunksOf (store w) bookId) /\ pageOrChapter c = PageNum i.

(** ** The assistant panel (AIAssistant), its send handler *)

(** [a || b] on numbers: 0 is falsy. *)
Definition orNumber (a b : number) : number :=
  match a with
  | Int 0 => b
  | _ => a
  end.

(** [handleSendMessage]: [inputValue] is the state of the input field, and the
    result carries its new value. [position] is the prop of the panel; the
    [isLoading] and [currentPosition] the panel reads are those of the render
    that made the callback. *)
Definition handleSendMessage (opts : UseAIChatOptions) (cap : Captured)
    (inputValue : string) (position : number) (now : Z) (w : ChatWorld)
  : string * (ChatWorld * option Pending) :=
  if String.eqb (trim inputValue) "" || capturedIsLoading cap then (inputValue, (w, None))
  else
    let message := trim inputValue in
    ("", sendMessage opts cap message (Some (orNumber position (capturedPosition cap))) now w).

End Model.

(** The histories of [a'] are those of [a] with messages added at the end. *)
Definition extendsHistory (a a' : AIAssistantState) : Prop :=
  forall b, exists added, getChatHistory a' b = (getChatHistory a b ++ added)%list.

(** Every message of every history has content. *)
Definition noEmptyMessage (a : AIAssistantState) : Prop :=
  forall b l m, chatHistory a !! b = Some l -> In m l -> Chat.content m <> "".

(** No line feed in [s]. *)
Fixpoint noNewline (s : string) : bool :=
  match s with
  | EmptyString => true
  | String c r => negb (Ascii.eqb c (ascii_of_nat 10)) && noNewline r
  end.

(** ** The assistant route, the relay of the provider's stream *)

Section Relay.

(** [parseDelta data] is [JSON.parse(data).choices?.[0]?.delta?.content]:
    [None] when [data] is not JSON or has no such string.
    [stringifyContent c] is [JSON.stringify({ content: c })]. *)
Variable parseDelta : string -> option string.
Variable stringifyContent : string -> string.

(** What the [start] function of the stream does to its controller: the
    chunks it passes to [controller.enqueue], in order; how often it calls
    [controller.close()] and [controller.error()]; whether the client has
    cancelled the stream; whether [start] has ended, and whether it ended by
    throwing. *)
Record RelayStream : Type := {
  enqueueCalls : list string;
  closeCalls : nat;
  errorCalls : nat;
  cancelled : bool;
  returned : bool;
  thrown : bool
}.

Definition doneChunk : string := "data: [DONE]" ++ nl ++ nl.

Definition contentChunk (c : string) : string :=
  "data: " ++ stringifyContent c ++ nl ++ nl.

(** The controller takes a chunk or a [close()] as long as the stream is
    readable and no close was requested: not after a [close()], an [error()]
    or the client's cancel. On a controller that is not open, [enqueue] and
    [close] throw a [TypeError], and [error] does nothing. *)
Definition controllerOpen (st : RelayStream) : bool :=
  negb (cancelled st) && (closeCalls st =? 0)%nat && (errorCalls st =? 0)%nat.

Definition controllerEnqueue (chunk : string) (st : RelayStream) : RelayStream :=
  {| enqueueCalls := (enqueueCalls st ++ [chunk])%list; closeCalls := closeCalls st;
     errorCalls := errorCalls st; cancelled := cancelled st;
     returned := returned st; thrown := thrown st |}.

Definition controllerClose (st : RelayStream) : RelayStream :=
  {| enqueueCalls := enqueueCalls st; closeCalls := S (closeCalls st);
     errorCalls := errorCalls st; cancelled := cancelled st;
     returned := returned st; thrown := thrown st |}.

Definition controllerError (st : RelayStream) : RelayStream :=
  {| enqueueCalls := enqueueCalls st; closeCalls := closeCalls st;
     errorCalls := S (errorCalls st); cancelled := cancelled st;
     returned := returned st; thrown := thrown st |}.

(** The [finally] block, [controller.close()], which ends [start]: by throwing
    when the controller is not open. *)
Definition relayFinally (st : RelayStream) : RelayStream :=
  {| enqueueCalls := enqueueCalls st; closeCalls := S (closeCalls st);
     errorCalls := errorCalls st; cancelled := cancelled st;
     returned := true; thrown := negb (controllerOpen st) |}.

(** The [for] loop over the lines of one value read from the provider. An
    [enqueue] of a content chunk sits in the inner [try], whose [catch]
    swallows what it throws. On [[DONE]] the handler enqueues its own end
    marker, calls [close()] and returns, and the [finally] block calls
    [close()] once more; if that [enqueue] throws, the outer [catch] calls
    [error()], and the [finally] block follows. *)
Fixpoint relayLines (lines : list string) (st : RelayStream) : RelayStream :=
  match lines with
  | [] => st
  | line :: rest =>
      if startsWith "data: " line then
        let data := sliceFrom 6 line in
        if String.eqb data "[DONE]" then
          if controllerOpen st then
            relayFinally (controllerClose (controllerEnqueue doneChunk st))
          else
            relayFinally (controllerError (controllerEnqueue doneChunk st))
        else
          match parseDelta data with
          | Some c =>
              if String.eqb c "" then relayLines rest st
              else relayLines rest (controllerEnqueue (contentChunk c) st)
          | None => relayLines rest st
          end
      else relayLines rest st
  end.

(** What happens to the relay while it runs: [reader.read()] on the
    provider's body gives a value (its decoded text), reports the end of the
    body, or rejects; or the client cancels the stream it reads. *)
Inductive RelayEvent : Type :=
  | ProviderValue (decoded : string)
  | ProviderDone
  | ProviderError
  | ClientCancels.

(** One turn of the [while] loop, or a cancel between two turns. *)
Definition relayStep (st : RelayStream) (ev : RelayEvent) : RelayStream :=
  if returned st then st
  else
    match ev with
    | ProviderValue decoded =>
        relayLines
          (List.filter (fun line => negb (String.eqb (trim line) "")) (splitLines decoded))
          st
    | ProviderDone => relayFinally st
    | ProviderError => relayFinally (controllerError st)
    | ClientCancels =>
        {| enqueueCalls := enqueueCalls st; closeCalls := closeCalls st;
           errorCalls := errorCalls st; cancelled := true;
           returned := returned st; thrown := thrown st |}
    end.

(** [start] up to its first [reader.read()]: without a body to read it closes
    and returns, outside the [try]. *)
Definition relayStart (hasBody : bool) : RelayStream :=
  {| enqueueCalls := []; closeCalls := if hasBody then 0 else 1; errorCalls := 0;
     cancelled := false; returned := negb hasBody; thrown := false |}.

Definition relay (hasBody : bool) (events : list RelayEvent) : RelayStream :=
  fold_left relayStep events (relayStart hasBody).


End Relay.

(** ** Scenarios *)

Definition numChunk (page : Z) (t : string) : BookContextChunk :=
  {| pageOrChapter := PageNum page; text := t; timestamp := 0 |}.

Definition strChunk (key : string) (t : string) : BookContextChunk :=
  {| pageOrChapter := PageStr key; text := t; timestamp := 0 |}.

(** A chunk filed under the first integer above [Number.MAX_SAFE_INTEGER]. *)
Definition farChunk : BookContextChunk := numChunk 9007199254740992 "far".

(** A book whose page 1 has been read. *)
Definition onePageRead : BookContextState :=
  addContextChunk (H := intHost) "book" (numChunk 1 "Call me Ishmael.")
    (setCurrentBook "book" initialBookContextState).

Definition bookOpts : UseAIChatOptions :=
  {| bookId := "book"; bookTitle := "Moby Dick"; bookAuthor := Some "Melville" |}.

(** A callback created while no request was loading, with the reader on
    page 1. *)
Definition idleCallback : Captured :=
  {| capturedIsLoading := false; capturedPosition := Int 1 |}.

(** A callback created while a request was loading. *)
Definition busyCallback : Captured :=
  {| capturedIsLoading := true; capturedPosition := Int 1 |}.

(** A document whose first four pages carry no text (a scanned cover, blank
    leaves) and whose later pages do. *)
Definition blankPage : PdfPage := {| getTextContent := Some ["  "; ""] |}.

Definition textPage : PdfPage := {| getTextContent := Some ["Hello"; " world "] |}.

Definition coverDoc : PdfDoc :=
  fun i => if (i <=? 4)%Z then Some blankPage else Some textPage.

(** Every operation of pages [1 .. n] settles in page order: first the
    [getPage]s, then the [getTextContent]s. *)
Definition inPageOrder (n : Z) : list (Z * Z) :=
  (map (fun i => (i, 0%Z)) (seqZ 1 n) ++ map (fun i => (i, 0%Z)) (seqZ 1 n))%list.

(** The reader opens [coverDoc] at page 5 and the extraction completes. *)
Definition afterPage5 : option ExtractionWorld :=
  runExtraction (H := intHost) coverDoc "book" 5 (inPageOrder 5)
    (initializeContext "book" initialExtractionWorld).

Definition sampleRequest (context : string) : Request.ChatRequest :=
  {| Request.message := "Who is speaking?";
     Request.bookContext := context;
     Request.bookTitle := "Moby Dick";
     Request.bookAuthor := Some "Melville";
     Request.currentPosition := Int 1;
     Request.chatHistory := [] |}.

Definition groqEnv : Gateway.Env :=
  {| Gateway.GROQ_API_KEY := Some "key"; Gateway.OPENAI_API_KEY := None |}.

Definition groqConfig : Gateway.AIConfig :=
  {| Gateway.provider := "openai-compatible"; Gateway.apiKey := "key";
     Gateway.baseUrl := "https://api.groq.com/openai/v1/chat/completions";
     Gateway.model := "llama-3.1-8b-instant" |}.

(** Two calls through the same callback, the second before the first one's
    [fetch] has settled; then the first one's [fetch] rejects, aborted. *)
Definition startA : ChatWorld * option Pending :=
  sendMessage (H := intHost) bookOpts idleCallback "first question" None 1
    (initialChatWorld onePageRead).

Definition startB : ChatWorld * option Pending :=
  sendMessage (H := intHost) bookOpts idleCallback "second question" None 2 (fst startA).

Definition lateA : ChatWorld * option Pending :=
  resumeFetch 0 (FetchRejected AbortError) (fst startB).

(** The reader then goes back to page 3 of [coverDoc]. *)
Definition backToPage3 : option ExtractionWorld :=
  afterPage5 ≫= runExtraction (H := intHost) coverDoc "book" 3 (inPageOrder 3).

Fixpoint repeatChar (c : ascii) (n : nat) : string :=
  match n with
  | O => EmptyString
  | S k => String c (repeatChar c k)
  end.

(** The chat store with a response in the streaming buffer. *)
Definition streamingIshmael : AIAssistantState :=
  appendStreamingResponse "Ishmael" initialAIAssistantState.

(** A request that runs to its end, and the user message it starts with. *)
Definition completedRun : list ChatStep :=
  [CallSendMessage idleCallback " Who speaks? " None 1;
   SettleFetch 0 (ResponseOk true);
   SettleRead 0 (ReadValue ("data: Ish" ++ nl ++ nl ++ "data: mael" ++ nl ++ nl)) 2;
   SettleRead 0 (ReadValue ("data: [DONE]" ++ nl ++ nl)) 3;
   SettleRead 0 ReadDone 4].

Definition whoSpeaks : Chat.ChatMessage :=
  {| Chat.id := "user-1"; Chat.role := Chat.user;
     Chat.content := "Who speaks?"; Chat.timestamp := 1 |}.

(** ** Properties *)

Section Properties.

Context `{Host}.

Local Open Scope list_scope.

(** *** Arrays: [findIndex] and [sort] *)

Lemma keyStrictEq_eq (a b : pageKey) : keyStrictEq a b = true <-> a = b.
Proof.
  destruct a as [x|s], b as [y|t]; simpl; split; intros E;
    try discriminate; try congruence.
  - apply Z.eqb_eq in E. now subst.
  - apply Z.eqb_eq. congruence.
  - apply String.eqb_eq in E. now subst.
  - apply String.eqb_eq. congruence.
Qed.

Lemma findIndexFrom_none {A} (p : A -> bool) (l : list A) (i : Z) :
  (0 <= i)%Z ->
  (findIndexFrom p l i < 0)%Z ->
  Forall (fun x => p x = false) l.
Proof.
  revert i. induction l as [|x r IH]; intros i Hi Hneg; simpl in *.
  - constructor.
  - destruct (p x) eqn:E; [lia|].
    constructor; [assumption|]. apply (IH (i + 1)%Z); lia.
Qed.

Lemma findIndexFrom_first {A} (p : A -> bool) (pre : list A) (x : A) (post : list A) (i : Z) :
  Forall (fun y => p y = false) pre ->
  p x = true ->
  findIndexFrom p (pre ++ x :: post) i = (i + Z.of_nat (length pre))%Z.
Proof.
  revert i. induction pre as [|y r IH]; intros i Hpre Hx; simpl.
  - rewrite Hx. lia.
  - inversion Hpre as [|? ? Hy Hr]; subst. rewrite Hy.
    rewrite IH by assumption. lia.
Qed.

Lemma findIndexFrom_found {A} (p : A -> bool) (l : list A) (i : Z) :
  (0 <= i)%Z ->
  (0 <= findIndexFrom p l i)%Z ->
  exists pre x post,
    l = pre ++ x :: post /\ Forall (fun y => p y = false) pre /\ p x = true /\
    findIndexFrom p l i = (i + Z.of_nat (length pre))%Z.
Proof.
  revert i. induction l as [|x r IH]; intros i Hi Hpos; simpl in *.
  - lia.
  - destruct (p x) eqn:E.
    + exists [], x, r. simpl. repeat split; auto. lia.
    + destruct (IH (i + 1)%Z) as (pre & y & post & -> & Hpre & Hy & Hidx); [lia|assumption|].
      exists (x :: pre), y, post. simpl. repeat split; auto.
      rewrite Hidx. lia.
Qed.

Lemma sortInsert_perm {A} (cmp : A -> A -> Z) (x : A) (l : list A) :
  Permutation (sortInsert cmp x l) (x :: l).
Proof.
  induction l as [|y r IH]; simpl.
  - reflexivity.
  - destruct (cmp x y <=? 0)%Z.
    + reflexivity.
    + rewrite IH. apply perm_swap.
Qed.

Lemma jsSort_perm {A} (cmp : A -> A -> Z) (l : list A) :
  Permutation (jsSort cmp l) l.
Proof.
  induction l as [|x r IH]; simpl.
  - reflexivity.
  - rewrite sortInsert_perm. now constructor.
Qed.

Lemma sortInsert_sorted (x : BookContextChunk) (l : list BookContextChunk) :
  sortedChunks l -> sortedChunks (sortInsert compareChunks x l).
Proof.
  unfold sortedChunks. induction l as [|y r IH]; intros Hs; simpl.
  - repeat constructor.
  - inversion Hs as [|? ? Hr Hy]; subst.
    unfold compareChunks at 1.
    destruct (chunkPos x - chunkPos y <=? 0)%Z eqn:E.
    + apply Z.leb_le in E. simpl. constructor; [assumption|].
      constructor; [lia|].
      eapply Forall_impl; [exact Hy|]. simpl. intros; lia.
    + apply Z.leb_gt in E. simpl. constructor; [now apply IH|].
      assert (P : Permutation (map chunkPos (sortInsert compareChunks x r))
                    (chunkPos x :: map chunkPos r)).
      { change (chunkPos x :: map chunkPos r) with (map chunkPos (x :: r)).
        apply Permutation_map, sortInsert_perm. }
      eapply Permutation_Forall; [symmetry; exact P|].
      constructor; [lia|assumption].
Qed.

Lemma jsSort_sorted (l : list BookContextChunk) : sortedChunks (jsSort compareChunks l).
Proof.
  induction l as [|x r IH]; simpl.
  - constructor.
  - now apply sortInsert_sorted.
Qed.

(** Sorting an array that is already in order leaves it as it is. *)
Lemma jsSort_sorted_id (l : list BookContextChunk) :
  sortedChunks l -> jsSort compareChunks l = l.
Proof.
  unfold sortedChunks. induction l as [|x r IH]; intros Hs; simpl.
  - reflexivity.
  - inversion Hs as [|? ? Hr Hx]; subst. rewrite IH by assumption.
    destruct r as [|y r']; simpl; [reflexivity|].
    inversion Hx as [|? ? Hxy _]; subst.
    unfold compareChunks.
    destruct (chunkPos x - chunkPos y <=? 0)%Z eqn:E; [reflexivity|].
    apply Z.leb_gt in E. lia.
Qed.

Lemma filter_sorted (p : BookContextChunk -> bool) (l : list BookContextChunk) :
  sortedChunks l -> sortedChunks (List.filter p l).
Proof.
  unfold sortedChunks. induction l as [|x r IH]; intros Hs; simpl.
  - constructor.
  - inversion Hs as [|? ? Hr Hx]; subst. destruct (p x); simpl.
    + constructor; [now apply IH|].
      rewrite List.Forall_forall in *. intros z Hz. apply Hx.
      rewrite in_map_iff in *. destruct Hz as (c & <- & Hc).
      exists c. split; [reflexivity|]. apply filter_In in Hc. tauto.
    + now apply IH.
Qed.

(** *** The context store *)

Lemma addToChunks_new (chunk : BookContextChunk) (existing : list BookContextChunk) :
  Forall (fun c => pageOrChapter c <> pageOrChapter chunk) existing ->
  addToChunks chunk existing = jsSort compareChunks (existing ++ [chunk]).
Proof.
  intros Hnone. unfold addToChunks, findIndex.
  set (p := fun c => keyStrictEq (pageOrChapter c) (pageOrChapter chunk)).
  destruct (0 <=? findIndexFrom p existing 0)%Z eqn:E; [|reflexivity].
  apply Z.leb_le in E.
  destruct (findIndexFrom_found p existing 0) as (pre & x & post & -> & _ & Hx & _);
    [lia|assumption|].
  apply keyStrictEq_eq in Hx.
  apply Forall_app in Hnone as [_ Hnone].
  inversion Hnone; subst. contradiction.
Qed.

Lemma addToChunks_same (chunk old : BookContextChunk) (pre post : list BookContextChunk) :
  Forall (fun c => pageOrChapter c <> pageOrChapter chunk) pre ->
  pageOrChapter old = pageOrChapter chunk ->
  addToChunks chunk (pre ++ old :: post) =
    pre ++ (if (String.length (text old) <? String.length (text chunk))%nat
            then chunk else old) :: post.
Proof.
  intros Hpre Hold. unfold addToChunks, findIndex.
  rewrite findIndexFrom_first.
  - replace (0 <=? 0 + Z.of_nat (length pre))%Z with true by (symmetry; apply Z.leb_le; lia).
    replace (Z.to_nat (0 + Z.of_nat (length pre))) with (length pre + 0)%nat by lia.
    rewrite lookup_app_r by lia.
    replace (length pre + 0 - length pre)%nat with 0%nat by lia. simpl.
    destruct (String.length (text old) <? String.length (text chunk))%nat; [|reflexivity].
    rewrite insert_app_r. reflexivity.
  - eapply Forall_impl; [exact Hpre|]. simpl. intros c Hc.
    destruct (keyStrictEq (pageOrChapter c) (pageOrChapter chunk)) eqn:E; [|reflexivity].
    apply keyStrictEq_eq in E. contradiction.
  - now apply keyStrictEq_eq.
Qed.

(** The two cases of [addContextChunk]: the key is new, or it is the key of
    a stored chunk, and then of a first one. *)
Lemma addToChunks_cases (chunk : BookContextChunk) (existing : list BookContextChunk) :
  Forall (fun c => pageOrChapter c <> pageOrChapter chunk) existing \/
  exists pre old post,
    existing = pre ++ old :: post /\
    Forall (fun c => pageOrChapter c <> pageOrChapter chunk) pre /\
    pageOrChapter old = pageOrChapter chunk.
Proof.
  set (p := fun c => keyStrictEq (pageOrChapter c) (pageOrChapter chunk)).
  assert (Hp : forall l, Forall (fun y => p y = false) l ->
                         Forall (fun c => pageOrChapter c <> pageOrChapter chunk) l).
  { intros l Hl. eapply Forall_impl; [exact Hl|]. simpl. intros c Hc E.
    apply keyStrictEq_eq in E. unfold p in Hc. congruence. }
  destruct (Z_lt_le_dec (findIndexFrom p existing 0) 0) as [Hneg|Hpos].
  - left. apply Hp. apply (findIndexFrom_none p existing 0); [lia|assumption].
  - right.
    destruct (findIndexFrom_found p existing 0) as (pre & x & post & -> & Hpre & Hx & _);
      [lia|assumption|].
    exists pre, x, post. repeat split; [now apply Hp|now apply keyStrictEq_eq].
Qed.

Lemma addToChunks_inv (chunk : BookContextChunk) (existing : list BookContextChunk) :
  sortedChunks existing -> distinctKeys existing ->
  sortedChunks (addToChunks chunk existing) /\ distinctKeys (addToChunks chunk existing).
Proof.
  intros Hs Hd.
  destruct (addToChunks_cases chunk existing)
    as [Hnew | (pre & old & post & -> & Hpre & Hold)].
  - rewrite addToChunks_new by assumption. split; [apply jsSort_sorted|].
    unfold distinctKeys in *.
    rewrite (Permutation_map pageOrChapter (jsSort_perm compareChunks (existing ++ [chunk]))).
    rewrite map_app. simpl. rewrite <- Permutation_cons_append.
    apply NoDup_cons. split; [|assumption].
    rewrite list_elem_of_In, in_map_iff. intros (c & Hc & Hin).
    rewrite List.Forall_forall in Hnew. now apply (Hnew c).
  - rewrite addToChunks_same by assumption.
    destruct (String.length (text old) <? String.length (text chunk))%nat;
      [|now split].
    unfold sortedChunks, distinctKeys, chunkPos in *.
    rewrite !map_app in *. simpl in *. rewrite <- Hold. now split.
Qed.

Lemma empty_inv : sortedChunks [] /\ distinctKeys [].
Proof. split; constructor. Qed.

Lemma applyAction_inv (state : BookContextState) (a : storeAction) :
  storeInv state -> storeInv (applyAction state a).
Proof.
  intros Hinv b l. destruct a as [b'|b' c|b'|p]; simpl.
  - unfold setCurrentBook; simpl.
    destruct (contextChunks state !! b') eqn:E; simpl; [apply Hinv|].
    destruct (decide (b' = b)) as [->|Hne].
    + rewrite lookup_insert_eq. intros [= <-]. apply empty_inv.
    + rewrite lookup_insert_ne by assumption. apply Hinv.
  - destruct (decide (b' = b)) as [->|Hne].
    + rewrite lookup_insert_eq. intros [= <-]. unfold chunksOf.
      destruct (contextChunks state !! b) as [l0|] eqn:E; simpl.
      * destruct (Hinv b l0 E). now apply addToChunks_inv.
      * apply addToChunks_inv; apply empty_inv.
    + rewrite lookup_insert_ne by assumption. apply Hinv.
  - destruct (decide (b' = b)) as [->|Hne].
    + rewrite lookup_delete_eq. discriminate.
    + rewrite lookup_delete_ne by assumption. apply Hinv.
  - apply Hinv.
Qed.

Lemma fold_applyAction_inv (actions : list storeAction) (state : BookContextState) :
  storeInv state -> storeInv (fold_left applyAction actions state).
Proof.
  revert state. induction actions as [|a r IH]; intros state Hinv; simpl.
  - assumption.
  - apply IH. now apply applyAction_inv.
Qed.

Lemma runStore_inv (actions : list storeAction) : storeInv (runStore actions).
Proof.
  apply fold_applyAction_inv. intros b l. simpl. rewrite lookup_empty. discriminate.
Qed.

Lemma chunksOf_inv (state : BookContextState) (bookId : string) :
  storeInv state ->
  sortedChunks (chunksOf state bookId) /\ distinctKeys (chunksOf state bookId).
Proof.
  intros Hinv. unfold chunksOf.
  destruct (contextChunks state !! bookId) as [l|] eqn:E; simpl.
  - exact (Hinv bookId l E).
  - apply empty_inv.
Qed.

Lemma relevantChunks_perm (state : BookContextState) (bookId : string)
    (upToPosition : option number) :
  Permutation (relevantChunks state bookId upToPosition)
    (List.filter (fun c => leNumber (chunkPos c) (maxPositionOf upToPosition))
       (chunksOf state bookId)).
Proof. unfold relevantChunks. apply jsSort_perm. Qed.

(** What a read takes. With a bound [P] given, the chunks of the book whose
    numeric key is at most [P]; with the bound omitted, those whose numeric
    key is at most [Number.MAX_SAFE_INTEGER], which stands in for it. The
    result joins their texts. *)
Lemma relevantChunks_within_bound (state : BookContextState) (bookId : string)
    (upToPosition : option Z) (c : BookContextChunk) :
  getFullContext state bookId (Int <$> upToPosition)
    = join (nl ++ nl)%string (map text (relevantChunks state bookId (Int <$> upToPosition))) /\
  (In c (relevantChunks state bookId (Int <$> upToPosition)) <->
   In c (chunksOf state bookId) /\
   (chunkPos c <= match upToPosition with
                  | Some P => P
                  | None => MAX_SAFE_INTEGER
                  end)%Z).
Proof.
  split; [reflexivity|]. split.
  - intros Hin.
    apply (Permutation_in _ (relevantChunks_perm state bookId (Int <$> upToPosition))) in Hin.
    apply filter_In in Hin as [Hc Hle]. split; [assumption|].
    destruct upToPosition as [P|]; simpl in Hle; now apply Z.leb_le.
  - intros [Hc Hle].
    apply (Permutation_in _
             (Permutation_sym (relevantChunks_perm state bookId (Int <$> upToPosition)))).
    apply filter_In. split; [assumption|].
    destruct upToPosition as [P|]; simpl; now apply Z.leb_le.
Qed.

(** C4. When the book holds a chunk at the key of the new chunk ([old], the
    first one with that key), [addContextChunk] puts the new chunk in its
    place if the new text is strictly longer, and leaves the whole store as it
    was if the new text is shorter or of equal length: so the chunk is
    replaced exactly when the new text is strictly longer. *)
Theorem addContextChunk_same_key (state : BookContextState) (bookId : string)
    (chunk old : BookContextChunk) (pre post : list BookContextChunk) :
  contextChunks state !! bookId = Some (pre ++ old :: post) ->
  Forall (fun c => pageOrChapter c <> pageOrChapter chunk) pre ->
  pageOrChapter old = pageOrChapter chunk ->
  ((String.length (text old) < String.length (text chunk))%nat ->
     addContextChunk bookId chunk state =
       {| contextChunks := <[bookId := pre ++ chunk :: post]> (contextChunks state);
          currentBookId := currentBookId state;
          currentPosition := currentPosition state |}) /\
  ((String.length (text chunk) <= String.length (text old))%nat ->
     addContextChunk bookId chunk state = state) /\
  (chunksOf (addContextChunk bookId chunk state) bookId = pre ++ chunk :: post <->
     (String.length (text old) < String.length (text chunk))%nat \/ chunk = old).
Proof.
  intros Hlook Hpre Hold.
  assert (Hadd : addContextChunk bookId chunk state =
     {| contextChunks :=
          <[bookId := pre ++ (if (String.length (text old) <? String.length (text chunk))%nat
                              then chunk else old) :: post]> (contextChunks state);
        currentBookId := currentBookId state;
        currentPosition := currentPosition state |}).
  { unfold addContextChunk, chunksOf. rewrite Hlook. simpl.
    now rewrite addToChunks_same. }
  split; [|split].
  - intros Hlt. rewrite Hadd.
    now replace (String.length (text old) <? String.length (text chunk))%nat
      with true by (symmetry; apply Nat.ltb_lt; assumption).
  - intros Hle. rewrite Hadd.
    replace (String.length (text old) <? String.length (text chunk))%nat
      with false by (symmetry; apply Nat.ltb_ge; assumption).
    rewrite insert_id by assumption. now destruct state.
  - rewrite Hadd. unfold chunksOf. simpl. rewrite lookup_insert_eq. simpl.
    destruct (String.length (text old) <? String.length (text chunk))%nat eqn:E.
    + apply Nat.ltb_lt in E. tauto.
    + apply Nat.ltb_ge in E. split.
      * intros Heq. apply app_inv_head in Heq. inversion Heq. now right.
      * intros [Hlt | ->]; [lia|reflexivity].
Qed.

(** C5 (amended). After every sequence of store actions from the initial
    state, no book holds two chunks whose keys are strictly equal ([===]: the
    same type and the same value); a number and a string are never the same
    key. *)
Theorem runStore_distinct_keys (actions : list storeAction) (bookId : string) :
  NoDup (map pageOrChapter (chunksOf (runStore actions) bookId)) /\
  (forall i j ci cj,
    chunksOf (runStore actions) bookId !! i = Some ci ->
    chunksOf (runStore actions) bookId !! j = Some cj ->
    keyStrictEq (pageOrChapter ci) (pageOrChapter cj) = true ->
    i = j) /\
  (forall n s, keyStrictEq (PageNum n) (PageStr s) = false).
Proof.
  destruct (chunksOf_inv (runStore actions) bookId (runStore_inv actions)) as [_ Hd].
  split; [exact Hd|]. split; [|reflexivity].
  intros i j ci cj Hi Hj Heq. apply keyStrictEq_eq in Heq.
  unfold distinctKeys in Hd.
  apply (proj1 (NoDup_alt _) Hd i j (pageOrChapter ci)).
  - change (map pageOrChapter) with (fmap (M:=list) pageOrChapter).
    now rewrite list_lookup_fmap, Hi.
  - change (map pageOrChapter) with (fmap (M:=list) pageOrChapter).
    now rewrite list_lookup_fmap, Hj, Heq.
Qed.

(** C6. After every sequence of store actions from the initial state, so
    after [addContextChunk] calls in any order, the array stored for a book is
    in ascending order of numeric key, and a bounded read returns the texts of
    the selected chunks in that order, joined by a blank line. *)
Theorem runStore_sorted (actions : list storeAction) (bookId : string) :
  let state := runStore actions in
  StronglySorted Z.le (map chunkPos (chunksOf state bookId)) /\
  forall upToPosition,
    let selected :=
      List.filter (fun c => leNumber (chunkPos c) (maxPositionOf upToPosition))
        (chunksOf state bookId) in
    StronglySorted Z.le (map chunkPos selected) /\
    getFullContext state bookId upToPosition = join (nl ++ nl)%string (map text selected).
Proof.
  intros state.
  destruct (chunksOf_inv state bookId (runStore_inv actions)) as [Hs _].
  split; [exact Hs|].
  intros upToPosition selected.
  assert (Hsel : sortedChunks selected) by now apply filter_sorted.
  split; [exact Hsel|].
  unfold getFullContext, relevantChunks. fold selected.
  now rewrite jsSort_sorted_id.
Qed.

(** *** The chat store and the chat hook *)

Lemma trim_empty : trim "" = "".
Proof. reflexivity. Qed.

Lemma noEmptyAssistant_same_history (a a' : AIAssistantState) :
  chatHistory a' = chatHistory a -> noEmptyAssistant a -> noEmptyAssistant a'.
Proof. unfold noEmptyAssistant. intros ->. auto. Qed.

Lemma addMessage_noEmpty (b : string) (m : Chat.ChatMessage) (a : AIAssistantState) :
  (Chat.role m = Chat.assistant -> Chat.content m <> "") ->
  noEmptyAssistant a -> noEmptyAssistant (addMessage b m a).
Proof.
  intros Hm Ha b' l m'. unfold addMessage; simpl.
  destruct (decide (b = b')) as [->|Hne].
  - rewrite lookup_insert_eq. intros [= <-] Hin.
    apply in_app_or in Hin as [Hin | [<- | []]]; [|exact Hm].
    destruct (chatHistory a !! b') as [l0|] eqn:E; simpl in Hin; [|contradiction].
    now apply (Ha b' l0 m').
  - rewrite lookup_insert_ne by assumption. apply Ha.
Qed.

Lemma clearChat_noEmpty (b : string) (a : AIAssistantState) :
  noEmptyAssistant a -> noEmptyAssistant (clearChat b a).
Proof.
  intros Ha b' l m. unfold clearChat; simpl.
  destruct (decide (b = b')) as [->|Hne].
  - rewrite lookup_delete_eq. discriminate.
  - rewrite lookup_delete_ne by assumption. apply Ha.
Qed.

Lemma finalizeStreamingMessage_noEmpty (b : string) (now : Z) (a : AIAssistantState) :
  noEmptyAssistant a -> noEmptyAssistant (finalizeStreamingMessage b now a).
Proof.
  intros Ha. unfold finalizeStreamingMessage.
  destruct (String.eqb (streamingResponse a) "") eqn:E; [assumption|].
  apply String.eqb_neq in E.
  eapply noEmptyAssistant_same_history; [reflexivity|].
  apply addMessage_noEmpty; [|assumption]. simpl. intros _. exact E.
Qed.

Lemma processLines_noEmpty (b : string) (now : Z) (lines : list string)
    (a : AIAssistantState) :
  noEmptyAssistant a -> noEmptyAssistant (processLines b now lines a).
Proof.
  revert a. induction lines as [|line rest IH]; intros a Ha; cbn [processLines].
  - assumption.
  - destruct (startsWith "data: " line); [|now apply IH].
    destruct (String.eqb (sliceFrom 6 line) "[DONE]").
    + now apply finalizeStreamingMessage_noEmpty.
    + destruct (parseContent (sliceFrom 6 line)) as [c|]; [|now apply IH].
      destruct (String.eqb c ""); apply IH; [assumption|].
      eapply noEmptyAssistant_same_history; [reflexivity|assumption].
Qed.

Lemma finallyBlock_noEmpty (w : ChatWorld) :
  noEmptyAssistant (ai w) -> noEmptyAssistant (ai (finallyBlock w)).
Proof. intros Hw. eapply noEmptyAssistant_same_history; [reflexivity|exact Hw]. Qed.

Lemma catchBlock_noEmpty (err : JsError) (w : ChatWorld) :
  noEmptyAssistant (ai w) -> noEmptyAssistant (ai (catchBlock err w)).
Proof.
  intros Hw. destruct err; (eapply noEmptyAssistant_same_history; [reflexivity|exact Hw]).
Qed.

Lemma chatStep_noEmpty (opts : UseAIChatOptions) (w : ChatWorld) (s : ChatStep) :
  noEmptyAssistant (ai w) -> noEmptyAssistant (ai (chatStep opts w s)).
Proof.
  intros Hw. destruct s as [cap message position now|signal settled|signal settled now| |];
    simpl.
  - unfold sendMessage.
    destruct (String.eqb (trim message) "" || capturedIsLoading cap); [assumption|].
    match goal with
    | |- context [withAI ?f (newAbortController ?w1)] =>
        assert (H3 : noEmptyAssistant (ai (withAI f (newAbortController w1))))
    end.
    { simpl. eapply noEmptyAssistant_same_history; [reflexivity|].
      apply addMessage_noEmpty; [discriminate|].
      now destruct (abortControllerRef w). }
    match goal with |- context [if ?c then _ else _] => destruct c end; simpl.
    + eapply noEmptyAssistant_same_history; [reflexivity|exact H3].
    + exact H3.
  - destruct settled as [err|errorField|err|[|]]; simpl;
      try apply catchBlock_noEmpty; assumption.
  - destruct settled as [err|decoded|]; simpl.
    + now apply catchBlock_noEmpty.
    + now apply processLines_noEmpty.
    + destruct (String.eqb (streamingResponse (ai w)) ""); simpl.
      * eapply noEmptyAssistant_same_history; [reflexivity|exact Hw].
      * eapply noEmptyAssistant_same_history; [reflexivity|].
        now apply finalizeStreamingMessage_noEmpty.
  - unfold cancelRequest. destruct (abortControllerRef w); [|assumption].
    eapply noEmptyAssistant_same_history; [reflexivity|exact Hw].
  - now apply clearChat_noEmpty.
Qed.

Lemma runChat_noEmpty (opts : UseAIChatOptions) (steps : list ChatStep) (w : ChatWorld) :
  noEmptyAssistant (ai w) -> noEmptyAssistant (ai (runChat opts w steps)).
Proof.
  unfold runChat. revert w. induction steps as [|s r IH]; intros w Hw; simpl.
  - assumption.
  - apply IH. now apply chatStep_noEmpty.
Qed.

(** A call that the guard at the top of [sendMessage] turns away changes
    nothing. *)
Lemma sendMessage_guard (opts : UseAIChatOptions) (cap : Captured) (message : string)
    (position : option number) (now : Z) (w : ChatWorld) :
  trim message = "" \/ capturedIsLoading cap = true ->
  sendMessage opts cap message position now w = (w, None).
Proof.
  intros [Hm | Hl]; unfold sendMessage.
  - now rewrite Hm.
  - rewrite Hl. now rewrite orb_true_r.
Qed.

(** Whatever the callback captured, a call made while the bounded context is
    blank hands nothing to [fetch] and is not left suspended. *)
Lemma sendMessage_blank_context_no_fetch (opts : UseAIChatOptions) (cap : Captured)
    (message : string) (position : option number) (now : Z) (w : ChatWorld) :
  trim (getFullContext (books w) (bookId opts)
          (Some (default (capturedPosition cap) position))) = "" ->
  snd (sendMessage opts cap message position now w) = None /\
  fetched (fst (sendMessage opts cap message position now w)) = fetched w.
Proof.
  intros Hctx. unfold sendMessage.
  destruct (String.eqb (trim message) "" || capturedIsLoading cap); [now split|].
  assert (Hb : forall f, books (withAI f (newAbortController
                 match abortControllerRef w with Some c => abort c w | None => w end))
               = books w).
  { intros f. simpl. now destruct (abortControllerRef w). }
  rewrite Hb, Hctx. simpl. rewrite orb_true_r. simpl.
  split; [reflexivity|]. now destruct (abortControllerRef w).
Qed.

(** A call that passes the guard aborts the controller found in the slot and
    puts a new one there. *)
Lemma sendMessage_aborts_previous (opts : UseAIChatOptions) (cap : Captured)
    (message : string) (position : option number) (now : Z) (w : ChatWorld) (c : nat) :
  trim message <> "" ->
  capturedIsLoading cap = false ->
  abortControllerRef w = Some c ->
  let w' := fst (sendMessage opts cap message position now w) in
  In c (aborted w') /\ controllers w' = S (controllers w).
Proof.
  intros Hm Hl Hc. unfold sendMessage.
  apply String.eqb_neq in Hm. rewrite Hm, Hl, Hc. cbn [orb].
  match goal with |- context [if ?b then _ else _] => destruct b end;
    simpl; split; auto.
Qed.

(** What the resumption of an aborted call does to the state: the history,
    the streaming buffer and the error stay; the loading flag is cleared and
    the controller slot is emptied, whoever set them. *)
Lemma catchBlock_AbortError (w : ChatWorld) :
  let w' := catchBlock AbortError w in
  chatHistory (ai w') = chatHistory (ai w) /\
  streamingResponse (ai w') = streamingResponse (ai w) /\
  error (ai w') = error (ai w) /\
  isLoading (ai w') = false /\
  abortControllerRef w' = None.
Proof. simpl. repeat split. Qed.

(** C2 (amended). When the bounded context of the book is blank (the string
    read up to the effective position is empty after trim), a call of
    [sendMessage] whose message is not blank after trim, made through a
    callback that captured [isLoading = false], sets the error to the message
    that begins "No content has been read yet", clears the loading flag, and
    returns without handing anything to [fetch]. *)
Theorem sendMessage_empty_context (opts : UseAIChatOptions) (cap : Captured)
    (message : string) (position : option number) (now : Z) (w : ChatWorld) :
  trim message <> "" ->
  capturedIsLoading cap = false ->
  trim (getFullContext (books w) (bookId opts)
          (Some (default (capturedPosition cap) position))) = "" ->
  exists w',
    sendMessage opts cap message position now w = (w', None) /\
    error (ai w') = Some noContentMessage /\
    startsWith "No content has been read yet" noContentMessage = true /\
    isLoading (ai w') = false /\
    fetched w' = fetched w.
Proof.
  intros Hm Hl Hctx. unfold sendMessage.
  apply String.eqb_neq in Hm. rewrite Hm, Hl. cbn [orb].
  assert (Hb : forall f, books (withAI f (newAbortController
                 match abortControllerRef w with Some c => abort c w | None => w end))
               = books w).
  { intros f. simpl. now destruct (abortControllerRef w). }
  rewrite Hb, Hctx. simpl. rewrite orb_true_r.
  eexists. split; [reflexivity|]. simpl.
  repeat split. now destruct (abortControllerRef w).
Qed.

(** C10. [finalizeStreamingMessage] with an empty streaming buffer returns the
    state it was given: no message is appended and nothing else changes. So,
    in every run of the hook, an assistant message in a history has content
    that is not empty. *)
Theorem finalizeStreamingMessage_empty_noop (bookId : string) (now : Z)
    (state : AIAssistantState) :
  streamingResponse state = "" ->
  finalizeStreamingMessage bookId now state = state /\
  forall opts books steps b l m,
    chatHistory (ai (runChat opts (initialChatWorld books) steps)) !! b = Some l ->
    In m l -> Chat.role m = Chat.assistant -> Chat.content m <> "".
Proof.
  intros Hs. split.
  - unfold finalizeStreamingMessage. now rewrite Hs.
  - intros opts books steps.
    apply (runChat_noEmpty opts steps (initialChatWorld books)).
    intros b l m. simpl. rewrite lookup_empty. discriminate.
Qed.

(** *** The assistant route *)

Lemma slice0_length (n : nat) (s : string) :
  String.length (slice0 n s) = Nat.min n (String.length s).
Proof.
  revert s. induction n as [|k IH]; intros [|c r]; simpl; try reflexivity.
  now rewrite IH.
Qed.

Lemma slice0_sliceFrom (n : nat) (s : string) :
  (slice0 n s ++ sliceFrom n s)%string = s.
Proof.
  revert s. induction n as [|k IH]; intros [|c r]; simpl; try reflexivity.
  change (String c (slice0 k r ++ sliceFrom k r)%string = String c r).
  now rewrite IH.
Qed.

Lemma slice0_all (n : nat) (s : string) :
  (String.length s <= n)%nat -> slice0 n s = s.
Proof.
  revert s. induction n as [|k IH]; intros [|c r]; simpl; intros Hle;
    try reflexivity; try lia.
  rewrite IH by lia. reflexivity.
Qed.

(** C9. When the route calls the provider with a request whose context is
    [c], the context reaches the provider, in the second message, as the first
    12000 characters of [c] at most; the marker "[truncated]" follows it
    exactly when [c] is longer than 12000 characters, and a context of at most
    12000 characters is forwarded as it is, with no marker. *)
Theorem POST_context_truncation (authenticated : bool) (env : Gateway.Env)
    (body : Request.ChatRequest) (config : Gateway.AIConfig)
    (messages : list Gateway.Message) :
  Gateway.POST authenticated env body = Gateway.CallProvider config messages ->
  let c := Request.bookContext body in
  exists sent marker,
    messages !! 1%nat =
      Some {| Gateway.role := "system";
              Gateway.content := ("CONTEXT:" ++ nl ++ sent ++ marker)%string |} /\
    (sent ++ sliceFrom Gateway.contextLimit c)%string = c /\
    Z.of_nat Gateway.contextLimit = 12000%Z /\
    String.length sent = Nat.min Gateway.contextLimit (String.length c) /\
    (marker = (nl ++ "[truncated]")%string <->
     (Gateway.contextLimit < String.length c)%nat) /\
    ((String.length c <= Gateway.contextLimit)%nat -> marker = "" /\ sent = c).
Proof.
  intros Hpost c. unfold Gateway.POST in Hpost.
  destruct (negb authenticated); [discriminate|].
  destruct (String.eqb (Request.message body) "" || String.eqb (Request.bookContext body) "");
    [discriminate|].
  destruct (Gateway.getAIConfig env) as [cfg|]; [|discriminate].
  injection Hpost as _ <-.
  exists (Gateway.trimmedContext c).
  exists (if (Gateway.contextLimit <? String.length c)%nat
          then (nl ++ "[truncated]")%string else "").
  split; [reflexivity|]. split; [apply slice0_sliceFrom|].
  split; [reflexivity|].
  split; [unfold Gateway.trimmedContext; now rewrite slice0_length|].
  destruct (Gateway.contextLimit <? String.length c)%nat eqn:E.
  - apply Nat.ltb_lt in E. split; [tauto|]. intros Hle. exfalso.
    apply (Nat.lt_irrefl (String.length c)).
    eapply Nat.le_lt_trans; [exact Hle|exact E].
  - apply Nat.ltb_ge in E. split.
    + split; [discriminate|]. intros Hlt. exfalso.
      apply (Nat.lt_irrefl (String.length c)).
      eapply Nat.le_lt_trans; [exact E|exact Hlt].
    + intros _. split; [reflexivity|].
      unfold Gateway.trimmedContext. now apply slice0_all.
Qed.

(** The route reaches the provider for an authenticated request with a
    message, a context and a configured key. *)
Lemma POST_calls_provider (env : Gateway.Env) (body : Request.ChatRequest)
    (config : Gateway.AIConfig) :
  Request.message body <> "" -> Request.bookContext body <> "" ->
  Gateway.getAIConfig env = Some config ->
  Gateway.POST true env body = Gateway.CallProvider config (Gateway.buildMessages body).
Proof.
  intros Hm Hc Hcfg. unfold Gateway.POST. simpl.
  apply String.eqb_neq in Hm. apply String.eqb_neq in Hc.
  now rewrite Hm, Hc, Hcfg.
Qed.

(** *** The extraction hook *)

Lemma maxExtractedPage_nothing_extracted (currentPage : Z) :
  maxExtractedPage [] currentPage = Int currentPage.
Proof. reflexivity. Qed.

Lemma mathMax_spec (l : list Z) :
  match mathMax l with
  | NegInfinity => l = []
  | Int m => In m l /\ Forall (fun x => (x <= m)%Z) l
  end.
Proof.
  induction l as [|x r IH]; simpl; [reflexivity|].
  destruct (mathMax r) as [|m].
  - subst r. split; [now left|]. repeat constructor. lia.
  - destruct IH as [Hin Hall]. split.
    + destruct (Z.max_spec x m) as [[_ ->] | [_ ->]]; [now right|now left].
    + constructor; [lia|].
      eapply Forall_impl; [exact Hall|]. simpl. intros; lia.
Qed.

(** What [extractPDFPagesUpTo] hands to [updatePosition]: the target page when
    the set of extracted pages is empty; the largest extracted page that is at
    most the target when there is one; and [-Infinity] when pages have been
    extracted but all of them lie beyond the target. *)
Lemma maxExtractedPage_cases (extractedPages : list Z) (currentPage : Z) :
  match maxExtractedPage extractedPages currentPage with
  | Int m =>
      (extractedPages = [] /\ m = currentPage) \/
      (In m extractedPages /\ (m <= currentPage)%Z /\
       forall p, In p extractedPages -> (p <= currentPage)%Z -> (p <= m)%Z)
  | NegInfinity =>
      extractedPages <> [] /\ forall p, In p extractedPages -> (currentPage < p)%Z
  end.
Proof.
  unfold maxExtractedPage. destruct extractedPages as [|x r]; simpl length.
  - simpl. now left.
  - replace (0 <? S (length r))%nat with true by reflexivity.
    set (l := x :: r).
    pose proof (mathMax_spec (List.filter (fun p => (p <=? currentPage)%Z) l)) as Hmax.
    destruct (mathMax (List.filter (fun p => (p <=? currentPage)%Z) l)) as [|m].
    + split; [discriminate|]. intros p Hp.
      destruct (Z_lt_le_dec currentPage p) as [Hlt|Hle]; [assumption|].
      assert (Hin : In p (List.filter (fun p => (p <=? currentPage)%Z) l)).
      { apply filter_In. split; [assumption|now apply Z.leb_le]. }
      rewrite Hmax in Hin. contradiction.
    + right. destruct Hmax as [Hin Hall].
      apply filter_In in Hin as [Hin Hle]. apply Z.leb_le in Hle.
      repeat split; try assumption.
      intros p Hp Hpc. rewrite List.Forall_forall in Hall. apply Hall.
      apply filter_In. split; [assumption|now apply Z.leb_le].
Qed.

(** With nothing extracted and nothing queued, [extractPDFPagesUpTo] has put
    one request in flight for every page of [1 .. currentPage] by the time it
    reaches its first [await]. *)
Lemma extractPDFPagesUpTo_in_flight (currentPage : Z) (w : ExtractionWorld) :
  extractedPagesRef w = [] -> extractionQueueRef w = [] ->
  operationsInFlight (extractPDFPagesUpTo currentPage w) = Z.to_nat currentPage.
Proof.
  intros He Hq. unfold operationsInFlight, extractPDFPagesUpTo. cbn [extractionPromises].
  rewrite He, Hq.
  assert (Hgen : forall l : list Z,
    length (List.filter (fun p : Z * PageTask => negb (isSettled (snd p)))
              (map (fun i => (i, AwaitGetPage))
                 (List.filter (fun i => negb (setHas i []) && negb (setHas i [])) l)))
    = length l).
  { induction l as [|j l IHl]; simpl in *; [reflexivity|now rewrite IHl]. }
  rewrite Hgen. apply length_seqZ.
Qed.

End Properties.

(** ** The properties on the scenarios *)

Local Open Scope list_scope.

(** C1 at the failing input. A chunk filed under 9007199254740992 is stored
    for the book, and a read bounded at that position returns its text; the
    read with the bound omitted leaves the chunk out, and returns nothing. *)
Lemma getFullContext_omitted_bound_excludes :
  let state := addContextChunk (H := intHost) "book" farChunk initialBookContextState in
  In farChunk (chunksOf state "book") /\
  getFullContext (H := intHost) state "book" (Some (Int 9007199254740992)) = "far" /\
  ~ In farChunk (relevantChunks (H := intHost) state "book" None) /\
  getFullContext (H := intHost) state "book" None = "".
Proof.
  vm_compute. split; [now left|]. split; [reflexivity|]. split; [intros []|reflexivity].
Qed.

(** C2, as stated, fails: through a callback that captured
    [isLoading = true], a call with a message, on a book with no context,
    leaves the error unset and the loading flag set. *)
Lemma sendMessage_while_loading_sets_no_error :
  let w := withAI (setLoading true) (initialChatWorld initialBookContextState) in
  let r := sendMessage (H := intHost) bookOpts busyCallback "hello" None 0 w in
  trim (getFullContext (H := intHost) (books w) "book" (Some (Int 1))) = "" /\
  trim "hello" = "hello" /\
  error (ai (fst r)) = None /\
  isLoading (ai (fst r)) = true.
Proof. vm_compute. repeat split. Qed.

(** The first message on a book with nothing read. *)
Lemma sendMessage_empty_context_witness :
  exists w',
    sendMessage (H := intHost) bookOpts idleCallback "hello" None 0
      (initialChatWorld initialBookContextState) = (w', None) /\
    error (ai w') = Some noContentMessage /\
    startsWith "No content has been read yet" noContentMessage = true /\
    isLoading (ai w') = false /\
    fetched w' = fetched (initialChatWorld initialBookContextState).
Proof.
  apply (sendMessage_empty_context (H := intHost) bookOpts idleCallback "hello" None 0
           (initialChatWorld initialBookContextState)).
  - vm_compute. discriminate.
  - reflexivity.
  - vm_compute. reflexivity.
Defined.

(** C3 at the failing input. The second call aborts the first one's
    controller and installs its own (controller 1) with the loading flag set;
    when the first call's [fetch] then rejects, its [finally] block clears the
    loading flag and empties the controller slot, while the second request is
    still in flight. *)
Lemma superseded_request_clears_successor_state :
  snd startA = Some (AwaitFetch 0) /\
  snd startB = Some (AwaitFetch 1) /\
  aborted (fst startB) = [0%nat] /\
  abortControllerRef (fst startB) = Some 1%nat /\
  isLoading (ai (fst startB)) = true /\
  map snd (fetched (fst lateA)) = [0%nat; 1%nat] /\
  snd lateA = None /\
  abortControllerRef (fst lateA) = None /\
  isLoading (ai (fst lateA)) = false.
Proof. vm_compute. repeat split. Qed.

(** The merge example of the specification: "ab" at position 3, then
    "abcdef" at position 3. *)
Lemma addContextChunk_same_key_witness :
  let state := addContextChunk (H := intHost) "book" (numChunk 3 "ab") initialBookContextState in
  (addContextChunk (H := intHost) "book" (numChunk 3 "abcdef") state =
     {| contextChunks := <["book" := [numChunk 3 "abcdef"]]> (contextChunks state);
        currentBookId := currentBookId state;
        currentPosition := currentPosition state |}) /\
  (chunksOf (addContextChunk (H := intHost) "book" (numChunk 3 "abcdef") state) "book"
     = [numChunk 3 "abcdef"]).
Proof.
  intros state.
  destruct (addContextChunk_same_key (H := intHost) state "book"
              (numChunk 3 "abcdef") (numChunk 3 "ab") [] []) as (Hlonger & _ & Hiff).
  - vm_compute. reflexivity.
  - constructor.
  - reflexivity.
  - split.
    + apply Hlonger. vm_compute. lia.
    + apply Hiff. left. vm_compute. lia.
Defined.

(** C5, as stated, fails: after adding a chunk under the number 3 and one
    under the string "3", the book holds both, and their numeric keys are
    equal. *)
Lemma number_and_numeric_string_coexist :
  let state :=
    runStore (H := intHost)
      [SetCurrentBook "book";
       AddContextChunk "book" (numChunk 3 "ab");
       AddContextChunk "book" (strChunk "3" "cd")] in
  chunksOf state "book" = [numChunk 3 "ab"; strChunk "3" "cd"] /\
  chunkPos (H := intHost) (numChunk 3 "ab") = chunkPos (H := intHost) (strChunk "3" "cd").
Proof. vm_compute. split; reflexivity. Qed.

(** The merge example of the specification, with the shorter text: the read
    still gives "ab". *)
Example addContextChunk_shorter_text :
  let state := addContextChunk (H := intHost) "book" (numChunk 3 "ab") initialBookContextState in
  addContextChunk (H := intHost) "book" (numChunk 3 "a") state = state /\
  getFullContext (H := intHost) state "book" (Some (Int 3)) = "ab".
Proof. vm_compute. split; reflexivity. Qed.

(** The spoiler example of the specification: positions 1, 5, 10, 20 read up
    to 9 and up to 10. *)
Example getFullContext_up_to_9_and_10 :
  let state :=
    runStore (H := intHost)
      [AddContextChunk "book" (numChunk 1 "a");
       AddContextChunk "book" (numChunk 5 "b");
       AddContextChunk "book" (numChunk 10 "c");
       AddContextChunk "book" (numChunk 20 "d")] in
  getFullContext (H := intHost) state "book" (Some (Int 9)) = ("a" ++ nl ++ nl ++ "b")%string /\
  getFullContext (H := intHost) state "book" (Some (Int 10))
    = ("a" ++ nl ++ nl ++ "b" ++ nl ++ nl ++ "c")%string.
Proof. vm_compute. split; reflexivity. Qed.

(** The ordering example of the specification: positions 20, 1, 10. *)
Example getFullContext_20_1_10 :
  getFullContext (H := intHost)
    (runStore (H := intHost)
       [AddContextChunk "book" (numChunk 20 "c");
        AddContextChunk "book" (numChunk 1 "a");
        AddContextChunk "book" (numChunk 10 "b")])
    "book" (Some (Int 100))
  = ("a" ++ nl ++ nl ++ "b" ++ nl ++ nl ++ "c")%string.
Proof. vm_compute. reflexivity. Qed.

(** C7 at the failing input. After the extraction up to page 5 of
    [coverDoc], page 5 is the one extracted page and the position is 5. The
    extraction up to page 3 then completes with the position at
    [-Infinity]. *)
Lemma extractPDFPagesUpTo_position_minus_infinity :
  (extractedPagesRef <$> afterPage5) = Some [5%Z] /\
  (currentPosition <$> (store <$> afterPage5)) = Some (Int 5) /\
  (extractedPagesRef <$> backToPage3) = Some [5%Z] /\
  (currentPosition <$> (store <$> backToPage3)) = Some NegInfinity.
Proof. vm_compute. repeat split. Qed.

(** C8 at the failing input. With nothing extracted, the call for page 10
    cuts four batches, and when it reaches its first [await] the requests of
    all ten pages are in flight. *)
Lemma extractPDFPagesUpTo_ten_in_flight :
  let inv := extractPDFPagesUpTo 10 initialExtractionWorld in
  chunks inv = [[1; 2; 3]; [4; 5; 6]; [7; 8; 9]; [10]]%Z /\
  map snd (extractionPromises inv) = repeat AwaitGetPage 10 /\
  operationsInFlight inv = 10%nat.
Proof. vm_compute. repeat split. Qed.

(** A request with a short context, on a host with a Groq key. *)
Lemma POST_context_truncation_witness :
  let body := sampleRequest "Call me Ishmael." in
  exists sent marker,
    Gateway.buildMessages body !! 1%nat =
      Some {| Gateway.role := "system";
              Gateway.content := ("CONTEXT:" ++ nl ++ sent ++ marker)%string |} /\
    (sent ++ sliceFrom Gateway.contextLimit (Request.bookContext body))%string
      = Request.bookContext body /\
    Z.of_nat Gateway.contextLimit = 12000%Z /\
    String.length sent = Nat.min Gateway.contextLimit (String.length (Request.bookContext body)) /\
    (marker = (nl ++ "[truncated]")%string <->
     (Gateway.contextLimit < String.length (Request.bookContext body))%nat) /\
    ((String.length (Request.bookContext body) <= Gateway.contextLimit)%nat ->
     marker = "" /\ sent = Request.bookContext body).
Proof.
  intros body.
  apply (POST_context_truncation true groqEnv body groqConfig (Gateway.buildMessages body)).
  vm_compute. reflexivity.
Defined.

(** A context one character over the limit is cut and marked. *)
Example contextMessage_over_limit :
  Gateway.contextMessage (repeatChar "a" (Gateway.contextLimit + 1))
  = ("CONTEXT:" ++ nl ++ repeatChar "a" Gateway.contextLimit ++ nl ++ "[truncated]")%string.
Proof. vm_compute. reflexivity. Qed.

(** The initial state of the chat store has an empty buffer. *)
Lemma finalizeStreamingMessage_empty_noop_witness :
  finalizeStreamingMessage "book" 0 initialAIAssistantState = initialAIAssistantState /\
  forall opts books steps b l m,
    chatHistory (ai (runChat (H := intHost) opts (initialChatWorld books) steps)) !! b = Some l ->
    In m l -> Chat.role m = Chat.assistant -> Chat.content m <> "".
Proof.
  apply (finalizeStreamingMessage_empty_noop (H := intHost) "book" 0 initialAIAssistantState).
  reflexivity.
Defined.

(** A request that runs to its end: the tokens are gathered, [[DONE]]
    finalizes them into one assistant message, and the hook is idle again. *)
Example chat_run_to_completion :
  let w :=
    runChat (H := intHost) bookOpts (initialChatWorld onePageRead)
      [CallSendMessage idleCallback " Who speaks? " None 1;
       SettleFetch 0 (ResponseOk true);
       SettleRead 0 (ReadValue ("data: Ish" ++ nl ++ nl ++ "data: mael" ++ nl ++ nl)%string) 2;
       SettleRead 0 (ReadValue ("data: [DONE]" ++ nl ++ nl)%string) 3;
       SettleRead 0 ReadDone 4] in
  map (fun m => (Chat.role m, Chat.content m)) (getChatHistory (ai w) "book")
    = [(Chat.user, "Who speaks?"); (Chat.assistant, "Ishmael")] /\
  map (fun r => Request.bookContext (fst r)) (fetched w) = ["Call me Ishmael."] /\
  streamingResponse (ai w) = "" /\ isLoading (ai w) = false /\ error (ai w) = None /\
  abortControllerRef w = None.
Proof. vm_compute. repeat split. Qed.

(** ** Further properties of the code *)

Section MoreProperties.

Context `{Host}.

(** *** The context store *)

Lemma chunksOf_addContextChunk (state : BookContextState) (bookId : string)
    (chunk : BookContextChunk) :
  chunksOf (addContextChunk bookId chunk state) bookId
  = addToChunks chunk (chunksOf state bookId).
Proof. unfold chunksOf at 1. simpl. now rewrite lookup_insert_eq. Qed.

Lemma addToChunks_members (chunk x : BookContextChunk) (existing : list BookContextChunk) :
  In x (addToChunks chunk existing) -> In x existing \/ x = chunk.
Proof.
  destruct (addToChunks_cases chunk existing)
    as [Hnew | (pre & old & post & -> & Hpre & Hold)].
  - rewrite addToChunks_new by assumption. intros Hin.
    apply (Permutation_in _ (jsSort_perm compareChunks (existing ++ [chunk]))) in Hin.
    apply in_app_or in Hin as [Hin | [<- | []]]; auto.
  - rewrite addToChunks_same by assumption. intros Hin.
    apply in_app_or in Hin as [Hin | [Hin | Hin]].
    + left. apply in_or_app. now left.
    + destruct (String.length (text old) <? String.length (text chunk))%nat.
      * now right.
      * left. apply in_or_app. right. now left.
    + left. apply in_or_app. right. now right.
Qed.

Lemma addToChunks_keeps (chunk o : BookContextChunk) (existing : list BookContextChunk) :
  In o existing ->
  exists n, In n (addToChunks chunk existing) /\
            pageOrChapter n = pageOrChapter o /\
            (String.length (text o) <= String.length (text n))%nat.
Proof.
  intros Ho.
  destruct (addToChunks_cases chunk existing)
    as [Hnew | (pre & old & post & -> & Hpre & Hold)].
  - rewrite addToChunks_new by assumption. exists o. repeat split; [|lia].
    apply (Permutation_in _ (Permutation_sym (jsSort_perm compareChunks (existing ++ [chunk])))).
    apply in_or_app. now left.
  - rewrite addToChunks_same by assumption.
    apply in_app_or in Ho as [Ho | [<- | Ho]].
    + exists o. repeat split; [|lia]. apply in_or_app. now left.
    + destruct (String.length (text old) <? String.length (text chunk))%nat eqn:E.
      * apply Nat.ltb_lt in E. exists chunk. repeat split; [|congruence|lia].
        apply in_or_app. right. now left.
      * exists old. repeat split; [|lia]. apply in_or_app. right. now left.
    + exists o. repeat split; [|lia]. apply in_or_app. right. now right.
Qed.

Lemma addToChunks_has_key (chunk : BookContextChunk) (existing : list BookContextChunk) :
  exists n, In n (addToChunks chunk existing) /\
            pageOrChapter n = pageOrChapter chunk /\
            (String.length (text chunk) <= String.length (text n))%nat.
Proof.
  destruct (addToChunks_cases chunk existing)
    as [Hnew | (pre & old & post & -> & Hpre & Hold)].
  - rewrite addToChunks_new by assumption. exists chunk. repeat split; [|lia].
    apply (Permutation_in _ (Permutation_sym (jsSort_perm compareChunks (existing ++ [chunk])))).
    apply in_or_app. right. now left.
  - rewrite addToChunks_same by assumption.
    destruct (String.length (text old) <? String.length (text chunk))%nat eqn:E.
    + exists chunk. repeat split; [|lia]. apply in_or_app. right. now left.
    + apply Nat.ltb_ge in E. exists old. repeat split; [|assumption|assumption].
      apply in_or_app. right. now left.
Qed.

Lemma addToChunks_idempotent (chunk : BookContextChunk) (existing : list BookContextChunk) :
  addToChunks chunk (addToChunks chunk existing) = addToChunks chunk existing.
Proof.
  destruct (addToChunks_cases chunk existing)
    as [Hnew | (pre & old & post & -> & Hpre & Hold)].
  - rewrite (addToChunks_new chunk existing) by assumption.
    set (l' := jsSort compareChunks (existing ++ [chunk])).
    assert (Hmem : forall x, In x l' -> In x existing \/ x = chunk).
    { intros x Hx. apply (Permutation_in _ (jsSort_perm compareChunks _)) in Hx.
      apply in_app_or in Hx as [Hx | [<- | []]]; auto. }
    assert (Hc : In chunk l').
    { apply (Permutation_in _ (Permutation_sym (jsSort_perm compareChunks _))).
      apply in_or_app. right. now left. }
    destruct (addToChunks_cases chunk l')
      as [Hnone | (pre & old & post & Hl' & Hpre & Hold)].
    + rewrite List.Forall_forall in Hnone. now destruct (Hnone chunk Hc).
    + rewrite Hl'. rewrite addToChunks_same by assumption.
      assert (Hin : In old l') by (rewrite Hl'; apply in_or_app; right; now left).
      destruct (Hmem old Hin) as [Hex | ->].
      * rewrite List.Forall_forall in Hnew. now destruct (Hnew old Hex).
      * now rewrite Nat.ltb_irrefl.
  - rewrite (addToChunks_same chunk old pre post) by assumption.
    destruct (String.length (text old) <? String.length (text chunk))%nat eqn:E.
    + rewrite addToChunks_same by auto. now rewrite Nat.ltb_irrefl.
    + rewrite addToChunks_same by assumption. now rewrite E.
Qed.

Lemma addToChunks_length (chunk : BookContextChunk) (existing : list BookContextChunk) :
  (length existing <= length (addToChunks chunk existing) <= S (length existing))%nat.
Proof.
  destruct (addToChunks_cases chunk existing)
    as [Hnew | (pre & old & post & -> & Hpre & Hold)].
  - rewrite addToChunks_new by assumption.
    rewrite (Permutation_length (jsSort_perm compareChunks _)).
    rewrite length_app. simpl. lia.
  - rewrite addToChunks_same by assumption. rewrite !length_app. simpl. lia.
Qed.

(** X1. Selecting a book keeps every extracted chunk of every book and the
    position, and selecting it again changes nothing more. *)
Theorem setCurrentBook_keeps_chunks (state : BookContextState) (bookId other : string) :
  chunksOf (setCurrentBook bookId state) other = chunksOf state other /\
  currentPosition (setCurrentBook bookId state) = currentPosition state /\
  currentBookId (setCurrentBook bookId state) = Some bookId /\
  setCurrentBook bookId (setCurrentBook bookId state) = setCurrentBook bookId state.
Proof.
  unfold setCurrentBook, chunksOf. simpl.
  destruct (contextChunks state !! bookId) as [l|] eqn:E; simpl.
  - rewrite E. repeat split.
  - rewrite lookup_insert_eq. repeat split.
    destruct (decide (bookId = other)) as [<-|Hne].
    + now rewrite lookup_insert_eq, E.
    + now rewrite lookup_insert_ne.
Qed.

(** X2. After [clearContext] the book has no context: no chunk, [hasContext]
    false, and an empty read for every bound; the other books, the current
    book and the position are as before. *)
Theorem clearContext_empties_book (state : BookContextState) (bookId other : string)
    (upToPosition : option number) :
  chunksOf (clearContext bookId state) other
    = (if decide (other = bookId) then [] else chunksOf state other) /\
  hasContext (clearContext bookId state) bookId = false /\
  getFullContext (clearContext bookId state) bookId upToPosition = "" /\
  currentPosition (clearContext bookId state) = currentPosition state /\
  currentBookId (clearContext bookId state) = currentBookId state.
Proof.
  assert (Hb : chunksOf (clearContext bookId state) bookId = []).
  { unfold chunksOf, clearContext. simpl. now rewrite lookup_delete_eq. }
  split; [|split; [|split]].
  - destruct (decide (other = bookId)) as [->|Hne]; [exact Hb|].
    unfold chunksOf, clearContext. simpl. now rewrite lookup_delete_ne.
  - unfold hasContext. now rewrite Hb.
  - unfold getFullContext, relevantChunks. now rewrite Hb.
  - split; reflexivity.
Qed.

(** X3. On every store reached from the initial state, the two bounded reads
    agree: [getContextUpToPosition] returns what [getFullContext] returns for
    the same bound. *)
Theorem getContextUpToPosition_getFullContext (actions : list storeAction)
    (bookId : string) (position : number) :
  getContextUpToPosition (runStore actions) bookId position
  = getFullContext (runStore actions) bookId (Some position).
Proof.
  unfold getContextUpToPosition, getFullContext, relevantChunks. simpl.
  destruct (chunksOf_inv (runStore actions) bookId (runStore_inv actions)) as [Hs _].
  rewrite jsSort_sorted_id; [reflexivity|]. now apply filter_sorted.
Qed.

(** [addContextChunk] is idempotent: adding the same chunk a second time
    changes nothing. *)
Lemma addContextChunk_idempotent (state : BookContextState) (bookId : string)
    (chunk : BookContextChunk) :
  addContextChunk bookId chunk (addContextChunk bookId chunk state)
  = addContextChunk bookId chunk state.
Proof.
  unfold addContextChunk at 1. rewrite chunksOf_addContextChunk.
  rewrite addToChunks_idempotent. unfold addContextChunk. simpl.
  now rewrite insert_insert_eq.
Qed.

(** X4. [addContextChunk] never loses or shortens what is stored: a chunk
    held before is still represented afterwards by a chunk with the same key
    whose text is at least as long; and the key of the new chunk is
    represented by a text at least as long as the new one, so the book has
    context. *)
Theorem addContextChunk_keeps_longest (state : BookContextState) (bookId : string)
    (chunk : BookContextChunk) :
  (forall o, In o (chunksOf state bookId) ->
     exists n, In n (chunksOf (addContextChunk bookId chunk state) bookId) /\
               pageOrChapter n = pageOrChapter o /\
               (String.length (text o) <= String.length (text n))%nat) /\
  (exists n, In n (chunksOf (addContextChunk bookId chunk state) bookId) /\
             pageOrChapter n = pageOrChapter chunk /\
             (String.length (text chunk) <= String.length (text n))%nat) /\
  hasContext (addContextChunk bookId chunk state) bookId = true.
Proof.
  rewrite chunksOf_addContextChunk. split; [|split].
  - intros o. apply addToChunks_keeps.
  - apply addToChunks_has_key.
  - unfold hasContext. rewrite chunksOf_addContextChunk.
    destruct (addToChunks_has_key chunk (chunksOf state bookId)) as (n & Hn & _).
    destruct (addToChunks chunk (chunksOf state bookId)); [contradiction|reflexivity].
Qed.

(** X5. [addContextChunk] adds nothing but the new chunk: every chunk of the
    book afterwards was there before or is the new chunk, the array grows by
    at most one, and the other books, the current book and the position are
    as before. *)
Theorem addContextChunk_adds_only_chunk (state : BookContextState) (bookId other : string)
    (chunk : BookContextChunk) :
  (forall x, In x (chunksOf (addContextChunk bookId chunk state) bookId) ->
     In x (chunksOf state bookId) \/ x = chunk) /\
  (length (chunksOf state bookId)
     <= length (chunksOf (addContextChunk bookId chunk state) bookId)
     <= S (length (chunksOf state bookId)))%nat /\
  (chunksOf (addContextChunk bookId chunk state) other
     = if decide (other = bookId) then addToChunks chunk (chunksOf state bookId)
       else chunksOf state other) /\
  currentPosition (addContextChunk bookId chunk state) = currentPosition state /\
  currentBookId (addContextChunk bookId chunk state) = currentBookId state.
Proof.
  rewrite chunksOf_addContextChunk. split; [|split; [|split; [|split]]];
    try reflexivity.
  - intros x. apply addToChunks_members.
  - apply addToChunks_length.
  - destruct (decide (other = bookId)) as [->|Hne].
    + apply chunksOf_addContextChunk.
    + unfold chunksOf, addContextChunk. simpl. now rewrite lookup_insert_ne.
Qed.

Lemma string_app_assoc (a b c : string) : ((a ++ b) ++ c)%string = (a ++ (b ++ c))%string.
Proof.
  induction a as [|x a IH]; [reflexivity|].
  change (String x ((a ++ b) ++ c)%string = String x (a ++ (b ++ c))%string).
  now rewrite IH.
Qed.

Lemma string_app_nil_r (a : string) : (a ++ "")%string = a.
Proof.
  induction a as [|x a IH]; [reflexivity|].
  change (String x (a ++ "")%string = String x a). now rewrite IH.
Qed.

Lemma join_app_extends (sep : string) (l1 l2 : list string) :
  exists suffix, join sep (l1 ++ l2) = (join sep l1 ++ suffix)%string.
Proof.
  induction l1 as [|x r IH].
  - exists (join sep l2). reflexivity.
  - destruct r as [|y r'].
    + destruct l2 as [|z l2'].
      * exists "". simpl. now rewrite string_app_nil_r.
      * exists (sep ++ join sep (z :: l2'))%string. reflexivity.
    + destruct IH as (suffix & IH). exists suffix.
      change (join sep ((x :: y :: r') ++ l2))
        with (x ++ sep ++ join sep ((y :: r') ++ l2))%string.
      rewrite IH.
      change (join sep (x :: y :: r')) with (x ++ sep ++ join sep (y :: r'))%string.
      now rewrite !string_app_assoc.
Qed.

Lemma filter_bound_extends (l : list BookContextChunk) (p q : Z) :
  sortedChunks l -> (p <= q)%Z ->
  exists rest,
    List.filter (fun c => leNumber (chunkPos c) (Int q)) l
    = List.filter (fun c => leNumber (chunkPos c) (Int p)) l ++ rest.
Proof.
  unfold sortedChunks. intros Hs Hpq. induction l as [|x r IH]; cbn [List.filter].
  - exists []. reflexivity.
  - simpl in Hs. inversion Hs as [|? ? Hr Hx]; subst.
    change (leNumber (chunkPos x) (Int q)) with (chunkPos x <=? q)%Z.
    change (leNumber (chunkPos x) (Int p)) with (chunkPos x <=? p)%Z.
    destruct (chunkPos x <=? p)%Z eqn:Ep.
    + apply Z.leb_le in Ep.
      replace (chunkPos x <=? q)%Z with true by (symmetry; apply Z.leb_le; lia).
      destruct (IH Hr) as (rest & ->). exists rest. reflexivity.
    + apply Z.leb_gt in Ep.
      assert (Hnone : List.filter (fun c => leNumber (chunkPos c) (Int p)) r = []).
      { clear IH Hs Hr. induction r as [|y r' IHr]; [reflexivity|]. cbn [List.filter].
        simpl in Hx. inversion Hx as [|? ? Hxy Hx']; subst.
        change (leNumber (chunkPos y) (Int p)) with (chunkPos y <=? p)%Z.
        replace (chunkPos y <=? p)%Z with false by (symmetry; apply Z.leb_gt; lia).
        now apply IHr. }
      rewrite Hnone. simpl. eexists. reflexivity.
Qed.

(** X6. On every store reached from the initial state, moving the bound
    forward only adds to the context: the read up to [q] starts with the read
    up to [p] whenever [p <= q]. *)
Theorem getFullContext_extends (actions : list storeAction) (bookId : string) (p q : Z) :
  (p <= q)%Z ->
  exists suffix,
    getFullContext (runStore actions) bookId (Some (Int q))
    = (getFullContext (runStore actions) bookId (Some (Int p)) ++ suffix)%string.
Proof.
  intros Hpq.
  destruct (chunksOf_inv (runStore actions) bookId (runStore_inv actions)) as [Hs _].
  unfold getFullContext, relevantChunks. simpl maxPositionOf.
  rewrite !jsSort_sorted_id by now apply filter_sorted.
  destruct (filter_bound_extends _ p q Hs Hpq) as (rest & ->).
  rewrite map_app. apply join_app_extends.
Qed.

(** *** The chat store and the chat hook *)

(** X7. [finalizeStreamingMessage] leaves the streaming buffer empty, and a
    second call right after the first changes nothing: the message is not
    appended twice. *)
Theorem finalizeStreamingMessage_once (bookId : string) (now later : Z)
    (state : AIAssistantState) :
  streamingResponse (finalizeStreamingMessage bookId now state) = "" /\
  finalizeStreamingMessage bookId later (finalizeStreamingMessage bookId now state)
  = finalizeStreamingMessage bookId now state.
Proof.
  assert (He : streamingResponse (finalizeStreamingMessage bookId now state) = "").
  { unfold finalizeStreamingMessage.
    destruct (String.eqb (streamingResponse state) "") eqn:E; [|reflexivity].
    now apply String.eqb_eq in E. }
  split; [exact He|].
  unfold finalizeStreamingMessage at 1. now rewrite He.
Qed.

(** X8. A non-empty streaming buffer is finalized into exactly one message at
    the end of the book's history: an assistant message whose content is the
    buffer. *)
Theorem finalizeStreamingMessage_appends (bookId : string) (now : Z)
    (state : AIAssistantState) :
  streamingResponse state <> "" ->
  exists m,
    getChatHistory (finalizeStreamingMessage bookId now state) bookId
      = getChatHistory state bookId ++ [m] /\
    Chat.role m = Chat.assistant /\
    Chat.content m = streamingResponse state /\
    Chat.timestamp m = now /\
    isLoading (finalizeStreamingMessage bookId now state) = isLoading state /\
    error (finalizeStreamingMessage bookId now state) = error state.
Proof.
  intros Hne. apply String.eqb_neq in Hne.
  unfold finalizeStreamingMessage. rewrite Hne.
  eexists. unfold getChatHistory. simpl. rewrite lookup_insert_eq. simpl.
  repeat split.
Qed.

Lemma extendsHistory_refl (a a' : AIAssistantState) :
  chatHistory a' = chatHistory a -> extendsHistory a a'.
Proof.
  intros E b. exists []. unfold getChatHistory. rewrite E. now rewrite app_nil_r.
Qed.

Lemma extendsHistory_trans (a b c : AIAssistantState) :
  extendsHistory a b -> extendsHistory b c -> extendsHistory a c.
Proof.
  intros Hab Hbc k. destruct (Hab k) as (x & Hx). destruct (Hbc k) as (y & Hy).
  exists (x ++ y). now rewrite Hy, Hx, app_assoc.
Qed.

Lemma addMessage_extends (b : string) (m : Chat.ChatMessage) (a : AIAssistantState) :
  extendsHistory a (addMessage b m a).
Proof.
  intros k. unfold getChatHistory, addMessage. simpl.
  destruct (decide (b = k)) as [->|Hne].
  - rewrite lookup_insert_eq. simpl. now exists [m].
  - rewrite lookup_insert_ne by assumption. exists []. now rewrite app_nil_r.
Qed.

Lemma finalizeStreamingMessage_extends (b : string) (now : Z) (a : AIAssistantState) :
  extendsHistory a (finalizeStreamingMessage b now a).
Proof.
  unfold finalizeStreamingMessage.
  destruct (String.eqb (streamingResponse a) ""); [now apply extendsHistory_refl|].
  eapply extendsHistory_trans; [apply addMessage_extends|].
  now apply extendsHistory_refl.
Qed.

Lemma processLines_extends (b : string) (now : Z) (lines : list string)
    (a : AIAssistantState) :
  extendsHistory a (processLines b now lines a).
Proof.
  revert a. induction lines as [|line rest IH]; intros a; cbn [processLines].
  - now apply extendsHistory_refl.
  - destruct (startsWith "data: " line); [|apply IH].
    destruct (String.eqb (sliceFrom 6 line) "[DONE]").
    + apply finalizeStreamingMessage_extends.
    + destruct (parseContent (sliceFrom 6 line)) as [c|]; [|apply IH].
      destruct (String.eqb c ""); [apply IH|].
      eapply extendsHistory_trans; [|apply IH]. now apply extendsHistory_refl.
Qed.

(** X9. The hook only ever adds to a history at its end: after a call of
    [sendMessage], a resumption or a cancel, every book's history is the one
    before with messages appended. Only the clear action removes messages,
    and only those of the hook's own book. *)
Theorem chatStep_history_append_only (opts : UseAIChatOptions) (w : ChatWorld)
    (s : ChatStep) :
  match s with
  | CallClear =>
      forall b, getChatHistory (ai (chatStep opts w s)) b
                = if decide (b = bookId opts) then [] else getChatHistory (ai w) b
  | _ => extendsHistory (ai w) (ai (chatStep opts w s))
  end.
Proof.
  destruct s as [cap message position now|signal settled|signal settled now| |];
    cbn [chatStep].
  - unfold sendMessage.
    destruct (String.eqb (trim message) "" || capturedIsLoading cap);
      [now apply extendsHistory_refl|].
    match goal with |- context [if ?c then _ else _] => destruct c end; simpl;
      (eapply extendsHistory_trans; [apply addMessage_extends|]);
      apply extendsHistory_refl; simpl; now destruct (abortControllerRef w).
  - destruct settled as [[| |]|errorField|[| |]|[|]]; now apply extendsHistory_refl.
  - destruct settled as [[| |]|decoded|]; simpl; try now apply extendsHistory_refl.
    + apply processLines_extends.
    + destruct (String.eqb (streamingResponse (ai w)) ""); simpl.
      * now apply extendsHistory_refl.
      * eapply extendsHistory_trans; [apply finalizeStreamingMessage_extends|].
        now apply extendsHistory_refl.
  - unfold cancelRequest. destruct (abortControllerRef w); now apply extendsHistory_refl.
  - intros b. unfold clear, getChatHistory. simpl.
    destruct (decide (b = bookId opts)) as [->|Hne].
    + now rewrite lookup_delete_eq.
    + now rewrite lookup_delete_ne.
Qed.

(** X10. The hook never writes the context store or the position, and only a
    call of [sendMessage] hands a request to [fetch]: every other step leaves
    the list of requests as it is. *)
Theorem chatStep_keeps_books (opts : UseAIChatOptions) (w : ChatWorld) (s : ChatStep) :
  books (chatStep opts w s) = books w /\
  match s with
  | CallSendMessage _ _ _ _ =>
      exists added, fetched (chatStep opts w s) = fetched w ++ added /\ (length added <= 1)%nat
  | _ => fetched (chatStep opts w s) = fetched w
  end.
Proof.
  destruct s as [cap message position now|signal settled|signal settled now| |];
    cbn [chatStep].
  - unfold sendMessage.
    destruct (String.eqb (trim message) "" || capturedIsLoading cap).
    + split; [reflexivity|]. exists []. rewrite app_nil_r. split; [reflexivity|simpl; lia].
    + destruct (abortControllerRef w);
        match goal with |- context [if ?c then _ else _] => destruct c end; simpl;
        (split; [reflexivity|]).
      1,3: exists []; rewrite app_nil_r; split; [reflexivity|simpl; lia].
      all: eexists; split; [reflexivity|simpl; lia].
  - destruct settled as [[| |]|errorField|[| |]|[|]]; now split.
  - destruct settled as [[| |]|decoded|]; simpl; try now split.
    destruct (String.eqb (streamingResponse (ai w)) ""); now split.
  - unfold cancelRequest. destruct (abortControllerRef w); now split.
  - now split.
Qed.

Lemma catchBlock_effect (err : JsError) (w : ChatWorld) :
  isLoading (ai (catchBlock err w)) = false /\
  abortControllerRef (catchBlock err w) = None /\
  chatHistory (ai (catchBlock err w)) = chatHistory (ai w) /\
  streamingResponse (ai (catchBlock err w)) = streamingResponse (ai w) /\
  fetched (catchBlock err w) = fetched w /\
  aborted (catchBlock err w) = aborted w /\
  error (ai (catchBlock err w))
    = match err with
      | AbortError => error (ai w)
      | TypeError _ => Some unreachableMessage
      | OtherError m => Some m
      end.
Proof. destruct err; repeat split. Qed.

(** A call that passes the guard while the slot is empty files the user's
    message, whatever the context holds, and aborts no controller. *)
Lemma sendMessage_files_user_message (opts : UseAIChatOptions) (cap : Captured)
    (message : string) (position : option number) (now : Z) (w : ChatWorld) :
  trim message <> "" ->
  capturedIsLoading cap = false ->
  abortControllerRef w = None ->
  let w' := fst (sendMessage opts cap message position now w) in
  getChatHistory (ai w') (bookId opts)
    = getChatHistory (ai w) (bookId opts)
      ++ [{| Chat.id := ("user-" ++ pretty now)%string; Chat.role := Chat.user;
             Chat.content := trim message; Chat.timestamp := now |}] /\
  aborted w' = aborted w.
Proof.
  intros Hm Hl Hslot. unfold sendMessage.
  apply String.eqb_neq in Hm. rewrite Hm, Hl, Hslot. cbn [orb].
  match goal with |- context [if ?c then _ else _] => destruct c end;
    unfold getChatHistory; simpl; rewrite lookup_insert_eq; now split.
Qed.

(** X11. No failure before the stream is read locks the chat. When the
    [fetch] settles in any way but with an ok response that has a body, the
    call ends with the loading flag and the controller slot cleared, and with
    the histories, the buffer and the requests made as they were. An abort
    sets no error; a [TypeError] (from [fetch], or from reading the [error]
    field of a [null] body) sets the connectivity message; any other error
    sets its own message; a response that is not ok sets the [error] field of
    its body, or "Failed to get response" when that is missing or empty; a
    response without a body sets "No response body". The next [sendMessage],
    through a callback rendered after the failure and with a message that is
    not blank, passes the guard: it files the user's message behind the
    history as it was before the failure, and aborts no controller. *)
Theorem failed_fetch_leaves_chat_usable (opts : UseAIChatOptions) (signal : nat)
    (settled : FetchSettled) (w : ChatWorld) (cap : Captured) (message : string)
    (position : option number) (now : Z) :
  settled <> ResponseOk true ->
  capturedIsLoading cap = isLoading (ai (fst (resumeFetch signal settled w))) ->
  trim message <> "" ->
  let w1 := fst (resumeFetch signal settled w) in
  let w2 := fst (sendMessage opts cap message position now w1) in
  snd (resumeFetch signal settled w) = None /\
  isLoading (ai w1) = false /\
  abortControllerRef w1 = None /\
  chatHistory (ai w1) = chatHistory (ai w) /\
  streamingResponse (ai w1) = streamingResponse (ai w) /\
  fetched w1 = fetched w /\
  error (ai w1)
    = match settled with
      | FetchRejected AbortError | ResponseNotOkThrows AbortError => error (ai w)
      | FetchRejected (TypeError _) | ResponseNotOkThrows (TypeError _) =>
          Some unreachableMessage
      | FetchRejected (OtherError m) | ResponseNotOkThrows (OtherError m) => Some m
      | ResponseNotOk (Some e) =>
          Some (if String.eqb e "" then "Failed to get response" else e)
      | ResponseNotOk None => Some "Failed to get response"
      | ResponseOk _ => Some "No response body"
      end /\
  getChatHistory (ai w2) (bookId opts)
    = getChatHistory (ai w) (bookId opts)
      ++ [{| Chat.id := ("user-" ++ pretty now)%string; Chat.role := Chat.user;
             Chat.content := trim message; Chat.timestamp := now |}] /\
  aborted w2 = aborted w.
Proof.
  intros Hs Hcap Hm w1 w2.
  assert (Hcatch : exists err, resumeFetch signal settled w = (catchBlock err w, None) /\
            error (ai (catchBlock err w))
            = match settled with
              | FetchRejected AbortError | ResponseNotOkThrows AbortError => error (ai w)
              | FetchRejected (TypeError _) | ResponseNotOkThrows (TypeError _) =>
                  Some unreachableMessage
              | FetchRejected (OtherError m) | ResponseNotOkThrows (OtherError m) => Some m
              | ResponseNotOk (Some e) =>
                  Some (if String.eqb e "" then "Failed to get response" else e)
              | ResponseNotOk None => Some "Failed to get response"
              | ResponseOk _ => Some "No response body"
              end).
  { destruct settled as [err|[e|]|err|[|]]; [| | | |contradiction|]; cbn [resumeFetch].
    - exists err. split; [reflexivity|]. now destruct err.
    - eexists. split; [reflexivity|]. simpl. now destruct (String.eqb e "").
    - eexists. split; reflexivity.
    - exists err. split; [reflexivity|]. now destruct err.
    - eexists. split; reflexivity. }
  destruct Hcatch as (err & Hres & Herr).
  subst w2 w1. rewrite Hres in *. cbn [fst snd] in *.
  destruct (catchBlock_effect err w) as (Hl & Hslot & Hh & Hb & Hf & Ha & _).
  rewrite Hl in Hcap.
  destruct (sendMessage_files_user_message opts cap message position now
              (catchBlock err w) Hm Hcap Hslot) as [Hhist Hab].
  repeat split; try assumption.
  - rewrite Hhist. unfold getChatHistory. now rewrite Hh.
  - now rewrite Hab.
Qed.

(** X12. Cancelling, and then the aborted read or fetch coming back, adds no
    message to any history and sets no error; the partial response stays in
    the streaming buffer; the loading flag and the controller slot are
    cleared, and the controller that was in the slot is aborted. With no
    request in the slot, [cancelRequest] does nothing at all. *)
Theorem cancelRequest_then_abort (opts : UseAIChatOptions) (signal : nat) (now : Z)
    (w : ChatWorld) :
  let w1 := cancelRequest w in
  let w2 := fst (resumeRead opts signal (ReadRejected AbortError) now w1) in
  let w3 := fst (resumeFetch signal (FetchRejected AbortError) w1) in
  (match abortControllerRef w with
   | Some c => In c (aborted w1) /\ isLoading (ai w1) = false /\ abortControllerRef w1 = None
   | None => w1 = w
   end) /\
  chatHistory (ai w1) = chatHistory (ai w) /\
  w3 = w2 /\
  chatHistory (ai w2) = chatHistory (ai w) /\
  error (ai w2) = error (ai w) /\
  streamingResponse (ai w2) = streamingResponse (ai w) /\
  isLoading (ai w2) = false /\
  abortControllerRef w2 = None.
Proof.
  unfold cancelRequest. destruct (abortControllerRef w) as [c|]; simpl; repeat split.
  now left.
Qed.

Lemma string_length_zero (s : string) : String.length s = 0%nat -> s = "".
Proof. destruct s; [reflexivity|discriminate]. Qed.

Lemma sliceLast_snoc {A} (n : nat) (l : list A) (m : A) :
  (0 < n)%nat ->
  (length (sliceLast n (l ++ [m])) <= n)%nat /\ last (sliceLast n (l ++ [m])) = Some m.
Proof.
  intros Hn. unfold sliceLast. rewrite length_drop, length_app. simpl. split; [lia|].
  rewrite drop_app_le by lia. apply last_snoc.
Qed.

(** X13. A call of [sendMessage] that passes the guard, on a book whose
    bounded context is not blank, hands exactly one request to [fetch], under
    a new controller it leaves in the slot. The request carries the trimmed
    message, the book's title and author, the context read up to the
    effective position (the argument, or else the position the callback
    captured) and that position, and the role and content of the last 10
    messages of the history in their order (of all of them when there are
    fewer), the user message just appended being the last of them. The
    loading flag is set, the error and the buffer are cleared. *)
Theorem sendMessage_request (opts : UseAIChatOptions) (cap : Captured)
    (message : string) (position : option number) (now : Z) (w : ChatWorld) :
  trim message <> "" ->
  capturedIsLoading cap = false ->
  trim (getFullContext (books w) (bookId opts)
          (Some (default (capturedPosition cap) position))) <> "" ->
  exists w' request userMessage,
    sendMessage opts cap message position now w = (w', Some (AwaitFetch (controllers w))) /\
    fetched w' = fetched w ++ [(request, controllers w)] /\
    abortControllerRef w' = Some (controllers w) /\
    Request.bookContext request
      = getFullContext (books w) (bookId opts)
          (Some (default (capturedPosition cap) position)) /\
    Request.currentPosition request = default (capturedPosition cap) position /\
    Request.message request = trim message /\
    (length (Request.chatHistory request) <= 10)%nat /\
    last (Request.chatHistory request) = Some (Chat.user, trim message) /\
    getChatHistory (ai w') (bookId opts) = getChatHistory (ai w) (bookId opts) ++ [userMessage] /\
    Chat.role userMessage = Chat.user /\
    Chat.content userMessage = trim message /\
    Chat.id userMessage = ("user-" ++ pretty now)%string /\
    Chat.timestamp userMessage = now /\
    Request.chatHistory request
      = map (fun m => (Chat.role m, Chat.content m))
          (drop (length (getChatHistory (ai w) (bookId opts) ++ [userMessage]) - 10)
             (getChatHistory (ai w) (bookId opts) ++ [userMessage])) /\
    Request.bookTitle request = bookTitle opts /\
    Request.bookAuthor request = bookAuthor opts /\
    isLoading (ai w') = true /\
    error (ai w') = None /\
    streamingResponse (ai w') = "".
Proof.
  intros Hm Hl Hctx. unfold sendMessage.
  apply String.eqb_neq in Hm. rewrite Hm, Hl. cbn [orb].
  assert (Hb : forall f, books (withAI f (newAbortController
                 match abortControllerRef w with Some c => abort c w | None => w end))
               = books w).
  { intros f. simpl. now destruct (abortControllerRef w). }
  rewrite Hb.
  set (ctx := getFullContext (books w) (bookId opts)
                (Some (default (capturedPosition cap) position))) in *.
  assert (Hc1 : String.eqb ctx "" = false).
  { apply String.eqb_neq. intros E. apply Hctx. now rewrite E. }
  assert (Hc2 : (String.length (trim ctx) =? 0)%nat = false).
  { apply Nat.eqb_neq. intros E. apply Hctx. now apply string_length_zero. }
  rewrite Hc1, Hc2. cbn [orb].
  set (userMessage := {| Chat.id := ("user-" ++ pretty now)%string; Chat.role := Chat.user;
                         Chat.content := trim message; Chat.timestamp := now |}).
  assert (Hsnoc : forall l : list Chat.ChatMessage,
            (length (map (fun m => (Chat.role m, Chat.content m))
                       (sliceLast 10 (l ++ [userMessage]))) <= 10)%nat /\
            last (map (fun m => (Chat.role m, Chat.content m))
                    (sliceLast 10 (l ++ [userMessage])))
            = Some (Chat.user, trim message)).
  { intros l. destruct (sliceLast_snoc 10 l userMessage) as [Hlen Hlast]; [lia|].
    split; [now rewrite length_map|].
    change (map (fun m => (Chat.role m, Chat.content m)))
      with (fmap (M := list) (fun m : Chat.ChatMessage => (Chat.role m, Chat.content m))).
    now rewrite fmap_last, Hlast. }
  destruct (abortControllerRef w) as [c0|];
    (eexists; eexists; exists userMessage; split; [reflexivity|]);
    unfold getChatHistory; simpl; rewrite lookup_insert_eq; simpl;
    destruct (Hsnoc (default [] (chatHistory (ai w) !! bookId opts))) as [Hlen Hlast];
    repeat split; assumption.
Qed.

(** X14. In one value read from the stream, the lines that follow a [[DONE]]
    line are not processed: their tokens are dropped. *)
Theorem processLines_stops_at_done (bookId : string) (now : Z)
    (before after : list string) (a : AIAssistantState) :
  processLines bookId now (before ++ "data: [DONE]" :: after) a
  = processLines bookId now (before ++ ["data: [DONE]"]) a.
Proof.
  revert a. induction before as [|line rest IH]; intros a.
  - reflexivity.
  - rewrite <- !app_comm_cons. cbn [processLines].
    destruct (startsWith "data: " line); [|apply IH].
    destruct (String.eqb (sliceFrom 6 line) "[DONE]"); [reflexivity|].
    destruct (parseContent (sliceFrom 6 line)) as [c|]; [|apply IH].
    destruct (String.eqb c ""); apply IH.
Qed.

(** X15. While no [[DONE]] line arrives, processing a value only adds text at
    the end of the streaming buffer: the histories, the loading flag and the
    error stay as they are. *)
Theorem processLines_appends_to_buffer (bookId : string) (now : Z)
    (lines : list string) (a : AIAssistantState) :
  forallb (fun line =>
             negb (startsWith "data: " line && String.eqb (sliceFrom 6 line) "[DONE]"))
    lines = true ->
  exists added,
    streamingResponse (processLines bookId now lines a)
      = (streamingResponse a ++ added)%string /\
    chatHistory (processLines bookId now lines a) = chatHistory a /\
    isLoading (processLines bookId now lines a) = isLoading a /\
    error (processLines bookId now lines a) = error a.
Proof.
  revert a. induction lines as [|line rest IH]; intros a Hall; cbn [processLines].
  - exists "". now rewrite string_app_nil_r.
  - cbn [forallb] in Hall. apply andb_prop in Hall as [Hline Hrest].
    destruct (startsWith "data: " line); [|now apply IH].
    destruct (String.eqb (sliceFrom 6 line) "[DONE]"); [discriminate|].
    destruct (parseContent (sliceFrom 6 line)) as [c|]; [|now apply IH].
    destruct (String.eqb c ""); [now apply IH|].
    destruct (IH (appendStreamingResponse c a) Hrest) as (added & Hs & Hh & Hl & He).
    exists (c ++ added)%string. rewrite Hs, Hh, Hl, He. simpl.
    now rewrite string_app_assoc.
Qed.

Lemma trimEnd_head (c : ascii) (r : string) :
  isWhitespace c = false -> exists r', trimEnd (String c r) = String c r'.
Proof.
  intros Hc. cbn [trimEnd]. destruct (trimEnd r) as [|d t].
  - rewrite Hc. now exists "".
  - now exists (String d t).
Qed.

Lemma trimEnd_idempotent (s : string) : trimEnd (trimEnd s) = trimEnd s.
Proof.
  induction s as [|c r IH]; [reflexivity|].
  cbn [trimEnd]. destruct (trimEnd r) as [|d t] eqn:E.
  - destruct (isWhitespace c) eqn:Hc; [reflexivity|]. cbn [trimEnd]. now rewrite Hc.
  - cbn [trimEnd] in *. cbn [trimEnd]. now rewrite IH.
Qed.

Lemma trimStart_head (s : string) :
  trimStart s = "" \/ exists c r, trimStart s = String c r /\ isWhitespace c = false.
Proof.
  induction s as [|c r IH]; [now left|].
  cbn [trimStart]. destruct (isWhitespace c) eqn:Hc; [exact IH|].
  right. now exists c, r.
Qed.

Lemma trim_idempotent (s : string) : trim (trim s) = trim s.
Proof.
  unfold trim. destruct (trimStart_head s) as [-> | (c & r & -> & Hc)]; [reflexivity|].
  destruct (trimEnd_head c r Hc) as (r' & E). rewrite E.
  cbn [trimStart]. rewrite Hc. rewrite <- E. apply trimEnd_idempotent.
Qed.

(** X16. When the input is not blank and no request is loading, the panel's
    send handler empties the input field and calls [sendMessage]; trimming the
    input first changes nothing, since [sendMessage] trims it too. The bound
    it passes is the panel's position, or the store's position when the
    panel's position is 0. *)
Theorem handleSendMessage_sends (opts : UseAIChatOptions) (cap : Captured)
    (inputValue : string) (position : number) (now : Z) (w : ChatWorld) :
  trim inputValue <> "" ->
  capturedIsLoading cap = false ->
  handleSendMessage opts cap inputValue position now w
    = ("", sendMessage opts cap inputValue
             (Some match position with Int 0 => capturedPosition cap | _ => position end)
             now w).
Proof.
  intros Hm Hl. unfold handleSendMessage.
  assert (Hm' : String.eqb (trim inputValue) "" = false) by now apply String.eqb_neq.
  rewrite Hm', Hl. cbn [orb]. f_equal.
  unfold sendMessage. now rewrite trim_idempotent.
Qed.

(** *** The assistant route *)

(** X17. The route calls the provider exactly when the request is
    authenticated, has a message and a context, and one of the two keys is set
    and not empty; the Groq key is the one used whenever it is set. An
    unauthenticated request is answered 401 whatever else it holds. *)
Theorem POST_calls_provider_iff (authenticated : bool) (env : Gateway.Env)
    (body : Request.ChatRequest) :
  ((exists config messages,
      Gateway.POST authenticated env body = Gateway.CallProvider config messages)
   <->
   authenticated = true /\ Request.message body <> "" /\ Request.bookContext body <> "" /\
   (Gateway.truthy (Gateway.GROQ_API_KEY env) <> None \/
    Gateway.truthy (Gateway.OPENAI_API_KEY env) <> None)) /\
  (forall config messages key,
     Gateway.POST authenticated env body = Gateway.CallProvider config messages ->
     Gateway.truthy (Gateway.GROQ_API_KEY env) = Some key ->
     Gateway.apiKey config = key /\
     Gateway.baseUrl config = "https://api.groq.com/openai/v1/chat/completions") /\
  Gateway.POST false env body = Gateway.JsonError 401 "Unauthorized".
Proof.
  split; [|split; [|reflexivity]].
  - unfold Gateway.POST, Gateway.getAIConfig.
    destruct authenticated; simpl.
    2: { split; [intros (? & ? & ?); discriminate|intros (? & _); discriminate]. }
    destruct (String.eqb (Request.message body) "") eqn:Em; simpl.
    { apply String.eqb_eq in Em. split; [intros (? & ? & ?); discriminate|].
      intros (_ & Hm & _). contradiction. }
    destruct (String.eqb (Request.bookContext body) "") eqn:Ec; simpl.
    { apply String.eqb_eq in Ec. split; [intros (? & ? & ?); discriminate|].
      intros (_ & _ & Hc & _). contradiction. }
    apply String.eqb_neq in Em. apply String.eqb_neq in Ec.
    destruct (Gateway.truthy (Gateway.GROQ_API_KEY env)) as [k|].
    { split; [intros _; repeat split; auto; now left|intros _; eauto]. }
    destruct (Gateway.truthy (Gateway.OPENAI_API_KEY env)) as [k|].
    { split; [intros _; repeat split; auto; now right|intros _; eauto]. }
    split; [intros (? & ? & ?); discriminate|].
    intros (_ & _ & _ & [Hk | Hk]); contradiction.
  - intros config messages key. unfold Gateway.POST, Gateway.getAIConfig.
    destruct (negb authenticated); [discriminate|].
    destruct (String.eqb (Request.message body) "" || String.eqb (Request.bookContext body) "");
      [discriminate|].
    intros Hpost Hkey. rewrite Hkey in Hpost. injection Hpost as <- _. now split.
Qed.

(** X18. The provider receives, in this order: the system prompt, which names
    the book's title in quotes, its author when one is given and not empty,
    and the reader's position, and forbids spoilers; the context message,
    which is "CONTEXT:", a line feed, the first 12000 characters of the
    context and, when the context is longer, the "[truncated]" marker on a
    line of its own; the last 6 entries of the history it was sent (all of
    them when there are fewer), in their order; and the user's message last:
    between 3 and 9 messages. *)
Theorem buildMessages_shape (body : Request.ChatRequest) :
  let messages := Gateway.buildMessages body in
  let history := Request.chatHistory body in
  length messages = (3 + Nat.min 6 (length history))%nat /\
  last messages
    = Some {| Gateway.role := "user"; Gateway.content := Request.message body |} /\
  messages !! 0%nat
    = Some {| Gateway.role := "system";
              Gateway.content :=
                ("You are a reading assistant for "
                 ++ String (ascii_of_nat 34) (Request.bookTitle body)
                 ++ String (ascii_of_nat 34)
                      (match Request.bookAuthor body with
                       | Some a => if String.eqb a "" then "" else " by " ++ a
                       | None => ""
                       end)
                 ++ ". The reader is currently at position "
                 ++ numberToString (Request.currentPosition body)
                 ++ ". IMPORTANT: Only discuss content from the provided context. Never reveal or hint at anything beyond what's shown - no spoilers.")%string
           |} /\
  messages !! 1%nat
    = Some {| Gateway.role := "system";
              Gateway.content :=
                ("CONTEXT:" ++ nl ++ slice0 (12 * 1000) (Request.bookContext body)
                 ++ (if (12 * 1000 <? String.length (Request.bookContext body))%nat
                     then nl ++ "[truncated]" else ""))%string |} /\
  (forall i,
     (i < Nat.min 6 (length history))%nat ->
     messages !! (2 + i)%nat
     = (fun msg => {| Gateway.role := Chat.roleName (fst msg); Gateway.content := snd msg |})
         <$> history !! (length history - Nat.min 6 (length history) + i)%nat).
Proof.
  intros messages history. unfold messages, Gateway.buildMessages. fold history.
  assert (Hlen : length (sliceLast 6 history) = Nat.min 6 (length history)).
  { unfold sliceLast. rewrite length_drop. lia. }
  split; [|split; [|split; [|split]]].
  - simpl. rewrite length_app, length_map, Hlen. simpl. lia.
  - change ([?a; ?b] ++ ?l) with (a :: b :: l).
    rewrite app_comm_cons, app_comm_cons. apply last_snoc.
  - cbn [app lookup list_lookup]. do 2 f_equal. unfold Gateway.systemPrompt, Gateway.truthy.
    destruct (Request.bookAuthor body) as [a|]; [|reflexivity].
    now destruct (String.eqb a "").
  - reflexivity.
  - remember (Nat.min 6 (length history)) as k eqn:Hk.
    intros i Hi. simpl.
    rewrite lookup_app_l by (rewrite length_map, Hlen; exact Hi).
    change (map ?f ?l) with (fmap (M := list) f l).
    rewrite list_lookup_fmap. unfold sliceLast. rewrite lookup_drop.
    do 2 f_equal. lia.
Qed.

(** *** The relay of the provider's stream, and the hook that reads it *)

Section RelayProperties.

Variable parseDelta : string -> option string.
Variable stringifyContent : string -> string.




Lemma splitLines_one_line (x : string) :
  noNewline x = true -> splitLines (x ++ nl ++ nl)%string = [x; ""; ""].
Proof.
  induction x as [|c r IH]; intros Hx; [reflexivity|].
  cbn [noNewline] in Hx. apply andb_prop in Hx as [Hc Hr].
  change (String c r ++ nl ++ nl)%string with (String c (r ++ nl ++ nl)%string).
  cbn [splitLines]. apply negb_true_iff in Hc. rewrite Hc. now rewrite IH.
Qed.

Lemma nonBlankLines_data_line (x : string) :
  noNewline x = true ->
  nonBlankLines ("data: " ++ x ++ nl ++ nl)%string = [("data: " ++ x)%string].
Proof.
  intros Hx. unfold nonBlankLines.
  replace ("data: " ++ x ++ nl ++ nl)%string with (("data: " ++ x) ++ nl ++ nl)%string
    by apply string_app_assoc.
  rewrite splitLines_one_line by exact Hx.
  cbn [List.filter].
  change ("data: " ++ x)%string
    with (String "d" (String "a" (String "t" (String "a" (String ":" (String " " x)))))).
  destruct (trimEnd_head "d"
              (String "a" (String "t" (String "a" (String ":" (String " " x))))) eq_refl)
    as (r' & E).
  unfold trim. cbn [trimStart]. change (isWhitespace "d") with false. cbv iota.
  rewrite E. reflexivity.
Qed.

(** X20. The hook reads back what the relay writes. A content chunk of the
    relay, arriving as one value, appends its token to the streaming buffer
    and nothing else, provided the host's JSON functions round-trip the token
    ([JSON.parse] of [JSON.stringify({content})] gives [content], and the
    serialization has no raw line feed); the relay's end marker, arriving as
    one value, finalizes the buffer. *)
Theorem relay_chunk_read_by_hook (bookId : string) (now : Z) (c : string)
    (a : AIAssistantState) :
  c <> "" ->
  noNewline (stringifyContent c) = true ->
  stringifyContent c <> "[DONE]" ->
  parseContent (stringifyContent c) = Some c ->
  processLines bookId now (nonBlankLines (contentChunk stringifyContent c)) a
    = appendStreamingResponse c a /\
  processLines bookId now (nonBlankLines doneChunk) a
    = finalizeStreamingMessage bookId now a.
Proof.
  intros Hc Hnl Hdone Hparse. split; [|reflexivity].
  unfold contentChunk. rewrite nonBlankLines_data_line by exact Hnl.
  cbn [processLines].
  replace (startsWith "data: " ("data: " ++ stringifyContent c)%string) with true
    by (unfold startsWith; cbn; now destruct (stringifyContent c)).
  change (sliceFrom 6 ("data: " ++ stringifyContent c)%string) with (stringifyContent c).
  cbv iota. apply String.eqb_neq in Hdone. rewrite Hdone, Hparse.
  apply String.eqb_neq in Hc. now rewrite Hc.
Qed.

End RelayProperties.

(** *** The extraction hook *)

Lemma batchesOf3_spec {A} (fuel : nat) (l : list A) :
  (length l <= fuel)%nat ->
  concat (batchesOf3 fuel l) = l /\
  Forall (fun chunk => (1 <= length chunk <= 3)%nat) (batchesOf3 fuel l).
Proof.
  revert l. induction fuel as [|k IH]; intros l Hlen.
  - destruct l; [|simpl in Hlen; lia]. split; [reflexivity|constructor].
  - destruct l as [|x r]; [split; [reflexivity|constructor]|].
    cbn [batchesOf3].
    destruct (IH (drop 3 (x :: r))) as [Hc Hf].
    { rewrite length_drop. simpl in *. lia. }
    split.
    + cbn [concat]. rewrite Hc. apply take_drop.
    + constructor; [|exact Hf]. rewrite length_take. simpl length. lia.
Qed.

Lemma extractPDFPagesUpTo_pages (currentPage : Z) (w : ExtractionWorld) :
  map fst (extractionPromises (extractPDFPagesUpTo currentPage w))
  = List.filter
      (fun i => negb (setHas i (extractedPagesRef w)) && negb (setHas i (extractionQueueRef w)))
      (seqZ 1 currentPage).
Proof.
  unfold extractPDFPagesUpTo. cbn [extractionPromises].
  generalize (List.filter
                (fun i => negb (setHas i (extractedPagesRef w))
                          && negb (setHas i (extractionQueueRef w)))
                (seqZ 1 currentPage)).
  induction l as [|x l IHl]; simpl; [reflexivity|now rewrite IHl].
Qed.

Lemma extractPDFPagesUpTo_candidate (currentPage : Z) (w : ExtractionWorld) (i : Z) :
  In i (map fst (extractionPromises (extractPDFPagesUpTo currentPage w))) <->
  (1 <= i <= currentPage)%Z /\
  setHas i (extractedPagesRef w) = false /\
  setHas i (extractionQueueRef w) = false.
Proof.
  rewrite extractPDFPagesUpTo_pages.
  rewrite filter_In, <- list_elem_of_In, elem_of_seqZ.
  rewrite andb_true_iff, !negb_true_iff. split; intros [? ?]; (split; [lia|assumption]).
Qed.

(** X21. [extractPDFPagesUpTo] starts a request for exactly the pages of
    [1 .. currentPage] that are neither extracted nor queued, each once; for a
    target below 1 it starts none. *)
Theorem extractPDFPagesUpTo_candidates (currentPage : Z) (w : ExtractionWorld) :
  let inv := extractPDFPagesUpTo currentPage w in
  (forall i,
     In i (map fst (extractionPromises inv)) <->
     (1 <= i <= currentPage)%Z /\
     setHas i (extractedPagesRef w) = false /\
     setHas i (extractionQueueRef w) = false) /\
  NoDup (map fst (extractionPromises inv)) /\
  Forall (fun p => snd p = AwaitGetPage) (extractionPromises inv) /\
  ((currentPage < 1)%Z -> extractionPromises inv = []).
Proof.
  intros inv. unfold inv. split; [|split; [|split]].
  - intros i. apply extractPDFPagesUpTo_candidate.
  - rewrite extractPDFPagesUpTo_pages.
    apply NoDup_ListNoDup, List.NoDup_filter, NoDup_ListNoDup, NoDup_seqZ.
  - unfold extractPDFPagesUpTo. cbn [extractionPromises].
    apply List.Forall_forall. intros p Hp. apply in_map_iff in Hp as (i & <- & _).
    reflexivity.
  - intros Hlt. unfold extractPDFPagesUpTo. cbn [extractionPromises].
    replace (seqZ 1 currentPage) with (@nil Z); [reflexivity|].
    unfold seqZ. replace (Z.to_nat currentPage) with 0%nat by lia. reflexivity.
Qed.

(** X22. The batches of [extractPDFPagesUpTo] are the started requests in
    order, cut into groups of 3 with a last group of 1 to 3. *)
Theorem extractPDFPagesUpTo_batches (currentPage : Z) (w : ExtractionWorld) :
  let inv := extractPDFPagesUpTo currentPage w in
  concat (chunks inv) = map fst (extractionPromises inv) /\
  Forall (fun chunk => (1 <= length chunk <= 3)%nat) (chunks inv) /\
  length (chunks inv) = ((length (extractionPromises inv) + 2) / 3)%nat.
Proof.
  intros inv. unfold inv, extractPDFPagesUpTo. cbn [extractionPromises chunks].
  set (ps := map (fun i => (i, AwaitGetPage)) _).
  destruct (batchesOf3_spec (length ps) (map fst ps)) as [Hc Hf];
    [now rewrite length_map|].
  split; [exact Hc|]. split; [exact Hf|].
  assert (Hgen : forall fuel (l : list Z), (length l <= fuel)%nat ->
            length (batchesOf3 fuel l) = ((length l + 2) / 3)%nat).
  { induction fuel as [|k IH]; intros l Hl.
    - destruct l; [reflexivity|simpl in Hl; lia].
    - destruct l as [|x r]; [reflexivity|]. cbn [batchesOf3 length].
      rewrite IH by (rewrite length_drop; simpl in *; lia).
      rewrite length_drop.
      destruct r as [|y [|z r']]; try reflexivity.
      simpl length. replace (S (S (S (length r'))) - 3)%nat with (length r') by lia.
      replace (S (S (S (length r'))) + 2)%nat with ((length r' + 2) + 1 * 3)%nat by lia.
      rewrite Nat.div_add by lia. lia. }
  rewrite Hgen by (rewrite length_map; lia). now rewrite length_map.
Qed.

Lemma settle_currentPage (pdfDoc : PdfDoc) (bookId : string) (i now : Z)
    (st : ExtractionWorld * Invocation) :
  currentPage (snd (settle pdfDoc bookId i now st)) = currentPage (snd st).
Proof.
  destruct st as [w inv]. unfold settle.
  destruct (resumeIn pdfDoc bookId i now (extractionPromises inv) w). reflexivity.
Qed.

Lemma fold_settle_currentPage (pdfDoc : PdfDoc) (bookId : string)
    (schedule : list (Z * Z)) (st : ExtractionWorld * Invocation) :
  currentPage (snd (fold_left (fun st ev => settle pdfDoc bookId (fst ev) (snd ev) st)
                      schedule st))
  = currentPage (snd st).
Proof.
  revert st. induction schedule as [|ev rest IH]; intros st; [reflexivity|].
  cbn [fold_left]. rewrite IH. apply settle_currentPage.
Qed.

(** X23. When a call of [extractPDFPagesUpTo] completes, the position it
    leaves is never beyond its target page: it is an extracted page at or
    before the target, or the target itself, or [-Infinity]. It is the target
    whenever the target page is among the extracted ones. *)
Theorem runExtraction_position_not_beyond (pdfDoc : PdfDoc) (bookId : string)
    (target : Z) (schedule : list (Z * Z)) (w w' : ExtractionWorld) :
  runExtraction pdfDoc bookId target schedule w = Some w' ->
  currentPosition (store w') = maxExtractedPage (extractedPagesRef w') target /\
  match currentPosition (store w') with
  | Int m => (m <= target)%Z /\ (m = target \/ In m (extractedPagesRef w'))
  | NegInfinity => extractedPagesRef w' <> []
  end /\
  (In target (extractedPagesRef w') -> currentPosition (store w') = Int target).
Proof.
  unfold runExtraction. intros Hrun.
  match type of Hrun with
  | context [fold_left ?f ?l ?s] =>
      pose proof (fold_settle_currentPage pdfDoc bookId l s) as Hcp;
      destruct (fold_left f l s) as [w1 inv1]
  end.
  simpl in Hcp. destruct (chunks inv1); [|discriminate].
  injection Hrun as <-. cbn [store extractPDFPagesUpToEnd extractedPagesRef
                              currentPosition updatePosition]. rewrite Hcp.
  split; [reflexivity|].
  pose proof (maxExtractedPage_cases (extractedPagesRef w1) target) as Hcases.
  split.
  - destruct (maxExtractedPage (extractedPagesRef w1) target) as [|m].
    + tauto.
    + destruct Hcases as [[_ ->] | (Hin & Hle & _)]; split; auto; lia.
  - intros Hin. destruct (maxExtractedPage (extractedPagesRef w1) target) as [|m].
    + destruct Hcases as [_ Hall]. specialize (Hall target Hin). lia.
    + destruct Hcases as [[He _] | (Hm & Hle & Hmax)].
      * rewrite He in Hin. contradiction.
      * specialize (Hmax target Hin). f_equal. lia.
Qed.

Lemma setHas_setDelete (x : Z) (s : list Z) : setHas x (setDelete x s) = false.
Proof.
  unfold setHas, setDelete. induction s as [|y r IH]; [reflexivity|].
  cbn [List.filter]. destruct (x =? y)%Z eqn:E; cbn [negb]; [exact IH|].
  cbn [existsb]. now rewrite E.
Qed.

(** X24. A page whose text cannot be read, or is blank once white space is
    collapsed, is not marked extracted: the store and the set of extracted
    pages stay as they are, the page leaves the queue, and the next call of
    [extractPDFPagesUpTo] that covers it requests it again. *)
Theorem unread_page_is_requested_again (bookId : string) (page : PdfPage)
    (pageNum now target : Z) (w : ExtractionWorld) :
  match getTextContent page with
  | None => True
  | Some items => trim (collapseWhitespace (join " " items)) = ""
  end ->
  setHas pageNum (extractedPagesRef w) = false ->
  (1 <= pageNum <= target)%Z ->
  let w' := extractPDFPageTextResume bookId page pageNum now w in
  store w' = store w /\
  extractedPagesRef w' = extractedPagesRef w /\
  setHas pageNum (extractionQueueRef w') = false /\
  In pageNum (map fst (extractionPromises (extractPDFPagesUpTo target w'))).
Proof.
  intros Htext Hex Hrange w'.
  assert (Hw' : w' = {| store := store w;
                        extractionQueueRef := setDelete pageNum (extractionQueueRef w);
                        extractedPagesRef := extractedPagesRef w |}).
  { unfold w', extractPDFPageTextResume.
    destruct (getTextContent page) as [items|]; [|reflexivity].
    now rewrite Htext. }
  rewrite Hw'. cbn [store extractedPagesRef extractionQueueRef].
  repeat split; [apply setHas_setDelete|].
  apply extractPDFPagesUpTo_candidate.
  cbn [extractedPagesRef extractionQueueRef].
  repeat split; try lia; [assumption|apply setHas_setDelete].
Qed.

Lemma setHas_In (x : Z) (s : list Z) : setHas x s = true <-> In x s.
Proof.
  unfold setHas. rewrite existsb_exists. split.
  - intros (y & Hy & E). apply Z.eqb_eq in E. now subst.
  - intros Hx. exists x. split; [assumption|apply Z.eqb_refl].
Qed.

Lemma In_setAdd (x y : Z) (s : list Z) : In y (setAdd x s) -> y = x \/ In y s.
Proof.
  unfold setAdd. destruct (setHas x s); [now right|].
  intros Hy. apply in_app_or in Hy as [Hy | [<- | []]]; auto.
Qed.

Lemma In_setAdd_self (x : Z) (s : list Z) : In x (setAdd x s).
Proof.
  unfold setAdd. destruct (setHas x s) eqn:E; [now apply setHas_In|].
  apply in_or_app. right. now left.
Qed.

Lemma extractedHaveChunks_add (bookId : string) (chunk : BookContextChunk) (k : Z)
    (w : ExtractionWorld) (q : list Z) :
  pageOrChapter chunk = PageNum k ->
  extractedHaveChunks bookId w ->
  extractedHaveChunks bookId
    {| store := addContextChunk bookId chunk (store w);
       extractionQueueRef := q;
       extractedPagesRef := setAdd k (extractedPagesRef w) |}.
Proof.
  intros Hk Hw i Hi. cbn [store extractedPagesRef] in *.
  rewrite chunksOf_addContextChunk.
  apply In_setAdd in Hi as [-> | Hi].
  - destruct (addToChunks_has_key chunk (chunksOf (store w) bookId)) as (n & Hn & Hkey & _).
    exists n. split; [assumption|congruence].
  - destruct (Hw i Hi) as (c & Hc & Hck).
    destruct (addToChunks_keeps chunk c (chunksOf (store w) bookId) Hc) as (n & Hn & Hkey & _).
    exists n. split; [assumption|congruence].
Qed.

Lemma extractedHaveChunks_same (bookId : string) (w w' : ExtractionWorld) :
  chunksOf (store w') bookId = chunksOf (store w) bookId ->
  extractedPagesRef w' = extractedPagesRef w ->
  extractedHaveChunks bookId w -> extractedHaveChunks bookId w'.
Proof. unfold extractedHaveChunks. intros -> ->. auto. Qed.

Lemma resumeTask_extractedHaveChunks (pdfDoc : PdfDoc) (bookId : string) (i now : Z)
    (t : PageTask) (w : ExtractionWorld) :
  extractedHaveChunks bookId w ->
  extractedHaveChunks bookId (fst (resumeTask pdfDoc bookId i now t w)).
Proof.
  intros Hw. destruct t as [|page|]; cbn [resumeTask]; [| |exact Hw].
  - destruct (pdfDoc i) as [page|]; [|exact Hw]. unfold extractPDFPageText.
    destruct (setHas i (extractedPagesRef w) || setHas i (extractionQueueRef w)); [exact Hw|].
    eapply extractedHaveChunks_same; [| |exact Hw]; reflexivity.
  - cbn [fst]. unfold extractPDFPageTextResume.
    destruct (getTextContent page) as [items|].
    + destruct (0 <? String.length (trim (collapseWhitespace (join " " items))))%nat.
      * eapply extractedHaveChunks_same;
          [| |eapply (extractedHaveChunks_add bookId); [|exact Hw]].
        all: reflexivity.
      * eapply extractedHaveChunks_same; [| |exact Hw]; reflexivity.
    + eapply extractedHaveChunks_same; [| |exact Hw]; reflexivity.
Qed.

Lemma resumeIn_extractedHaveChunks (pdfDoc : PdfDoc) (bookId : string) (i now : Z)
    (ps : list (Z * PageTask)) (w : ExtractionWorld) :
  extractedHaveChunks bookId w ->
  extractedHaveChunks bookId (fst (resumeIn pdfDoc bookId i now ps w)).
Proof.
  intros Hw. induction ps as [|[j t] rest IH]; cbn [resumeIn]; [exact Hw|].
  destruct (i =? j)%Z.
  - pose proof (resumeTask_extractedHaveChunks pdfDoc bookId i now t w Hw) as Ht.
    now destruct (resumeTask pdfDoc bookId i now t w).
  - now destruct (resumeIn pdfDoc bookId i now rest w).
Qed.

Lemma fold_settle_extractedHaveChunks (pdfDoc : PdfDoc) (bookId : string)
    (schedule : list (Z * Z)) (st : ExtractionWorld * Invocation) :
  extractedHaveChunks bookId (fst st) ->
  extractedHaveChunks bookId
    (fst (fold_left (fun st ev => settle pdfDoc bookId (fst ev) (snd ev) st) schedule st)).
Proof.
  revert st. induction schedule as [|ev rest IH]; intros st Hst; [exact Hst|].
  cbn [fold_left]. apply IH. destruct st as [w inv]. unfold settle.
  pose proof (resumeIn_extractedHaveChunks pdfDoc bookId (fst ev) (snd ev)
                (extractionPromises inv) w Hst) as Hr.
  now destruct (resumeIn pdfDoc bookId (fst ev) (snd ev) (extractionPromises inv) w).
Qed.

Lemma setHas_setAdd (x : Z) (s : list Z) : setHas x (setAdd x s) = true.
Proof. apply setHas_In, In_setAdd_self. Qed.

(** What [extractEPUBText] amounts to: its loop stores the first meaningful
    view, if the bucket is not extracted yet, and nothing else. *)
Lemma extractEPUBText_closed_form (bookId : string) (entries : list (option string))
    (positionKey now : Z) (w : ExtractionWorld) :
  extractEPUBText bookId (Some entries) positionKey now w =
  let w1 :=
    match firstMeaningful entries with
    | Some bodyText =>
        if setHas positionKey (extractedPagesRef w) then w
        else
          {| store :=
               addContextChunk bookId
                 {| pageOrChapter := PageNum positionKey;
                    text := ("[" ++ pretty positionKey ++ "%]" ++ nl
                               ++ slice0 3000 bodyText)%string;
                    timestamp := now |}
                 (store w);
             extractionQueueRef := extractionQueueRef w;
             extractedPagesRef := setAdd positionKey (extractedPagesRef w) |}
    | None => w
    end in
  {| store := updatePosition (Int positionKey) (store w1);
     extractionQueueRef := extractionQueueRef w1;
     extractedPagesRef := extractedPagesRef w1 |}.
Proof.
  unfold extractEPUBText. cbv zeta. 
  match goal with
  | |- context [fold_left ?f entries w] =>
      assert (Hfold : forall es w0,
        fold_left f es w0 =
        match firstMeaningful es with
        | Some bodyText =>
            if setHas positionKey (extractedPagesRef w0) then w0
            else f w0 (Some bodyText)
        | None => w0
        end)
  end.
  { induction es as [|[body|] rest IH]; intros w0; cbn [fold_left firstMeaningful].
    - reflexivity.
    - rewrite IH. destruct (50 <? String.length (trim body))%nat eqn:Elen; cbn [andb].
      + destruct (setHas positionKey (extractedPagesRef w0)) eqn:Ehas; cbn [negb].
        * rewrite ?Ehas, ?Elen. now destruct (firstMeaningful rest).
        * cbn [extractedPagesRef]. rewrite setHas_setAdd, ?Elen.
          now destruct (firstMeaningful rest).
      + reflexivity.
    - apply IH. }
  rewrite Hfold. destruct (firstMeaningful entries) as [body|] eqn:Ef; [|reflexivity].
  destruct (setHas positionKey (extractedPagesRef w)) eqn:Ehas; [reflexivity|].
  assert (Hlen : (50 <? String.length (trim body))%nat = true).
  { clear - Ef. induction entries as [|[b|] rest IH]; cbn [firstMeaningful] in Ef;
      [discriminate| |now apply IH].
    destruct (50 <? String.length (trim b))%nat eqn:E; [|now apply IH].
    now injection Ef as <-. }
  rewrite Hlen. reflexivity.
Qed.

(** X25. Every page the hook has marked extracted has a chunk under its
    number in the store, and a completed call of [extractPDFPagesUpTo] keeps
    it so; so does a call of [extractEPUBText]. *)
Theorem extracted_pages_have_chunks (pdfDoc : PdfDoc) (bookId : string) (target : Z)
    (schedule : list (Z * Z)) (contents : option (list (option string)))
    (positionKey now : Z) (w : ExtractionWorld) :
  extractedHaveChunks bookId w ->
  (forall w', runExtraction pdfDoc bookId target schedule w = Some w' ->
              extractedHaveChunks bookId w') /\
  extractedHaveChunks bookId (extractEPUBText bookId contents positionKey now w).
Proof.
  intros Hw. split.
  - intros w'. unfold runExtraction.
    match goal with
    | |- context [fold_left ?f ?l ?s] =>
        pose proof (fold_settle_extractedHaveChunks pdfDoc bookId l s Hw) as Hfold;
        destruct (fold_left f l s) as [w1 inv1]
    end.
    destruct (chunks inv1); [|discriminate]. intros [= <-].
    eapply extractedHaveChunks_same; [| |exact Hfold]; reflexivity.
  - destruct contents as [entries|]; [|exact Hw].
    rewrite extractEPUBText_closed_form. cbv zeta.
    destruct (firstMeaningful entries) as [body|].
    + destruct (setHas positionKey (extractedPagesRef w)).
      * eapply extractedHaveChunks_same; [| |exact Hw]; reflexivity.
      * eapply extractedHaveChunks_same;
          [| |eapply (extractedHaveChunks_add bookId); [|exact Hw]].
        all: reflexivity.
    + eapply extractedHaveChunks_same; [| |exact Hw]; reflexivity.
Qed.

(** X26. [extractEPUBText] always moves the position to the bucket, whether
    or not it stores anything, and touches neither the queue nor another
    book. It stores at most one chunk: every chunk of the book afterwards was
    there before, or is filed under the bucket and holds the marker followed
    by the first 3000 characters, at most, of a view with more than 50
    characters after trim. When the bucket is already extracted nothing is
    stored; when [getContents] throws nothing changes at all. *)
Theorem extractEPUBText_effect (bookId : string) (entries : list (option string))
    (positionKey now : Z) (w : ExtractionWorld) :
  let w' := extractEPUBText bookId (Some entries) positionKey now w in
  currentPosition (store w') = Int positionKey /\
  extractionQueueRef w' = extractionQueueRef w /\
  (forall c, In c (chunksOf (store w') bookId) ->
     In c (chunksOf (store w) bookId) \/
     (pageOrChapter c = PageNum positionKey /\
      exists bodyText,
        In (Some bodyText) entries /\
        (50 < String.length (trim bodyText))%nat /\
        text c = ("[" ++ pretty positionKey ++ "%]" ++ nl ++ slice0 3000 bodyText)%string /\
        (String.length (slice0 3000 bodyText) <= 3000)%nat)) /\
  (length (chunksOf (store w') bookId) <= S (length (chunksOf (store w) bookId)))%nat /\
  (setHas positionKey (extractedPagesRef w) = true ->
     store w' = updatePosition (Int positionKey) (store w) /\
     extractedPagesRef w' = extractedPagesRef w) /\
  extractEPUBText bookId None positionKey now w = w.
Proof.
  intros w'. unfold w'. rewrite extractEPUBText_closed_form. cbv zeta.
  assert (Hfirst : forall body, firstMeaningful entries = Some body ->
            In (Some body) entries /\ (50 < String.length (trim body))%nat).
  { intros body. induction entries as [|[b|] rest IH]; cbn [firstMeaningful];
      [discriminate| |intros E; destruct (IH E); split; [now right|assumption]].
    destruct (50 <? String.length (trim b))%nat eqn:E.
    - intros [= <-]. apply Nat.ltb_lt in E. split; [now left|assumption].
    - intros E'. destruct (IH E'). split; [now right|assumption]. }
  destruct (firstMeaningful entries) as [body|] eqn:Ef.
  - destruct (setHas positionKey (extractedPagesRef w)) eqn:Ehas;
      cbn [store extractionQueueRef extractedPagesRef currentPosition updatePosition].
    + repeat split; auto. 
    + destruct (Hfirst body eq_refl) as [Hin Hlen].
      change (chunksOf (updatePosition ?p ?s) bookId) with (chunksOf s bookId).
      rewrite chunksOf_addContextChunk.
      repeat split; try discriminate.
      * intros c Hc. destruct (addToChunks_members _ c _ Hc) as [Hold | ->]; [now left|right].
        split; [reflexivity|]. exists body. repeat split; try assumption.
        rewrite slice0_length. lia.
      * apply addToChunks_length.
  - cbn [store extractionQueueRef extractedPagesRef currentPosition updatePosition].
    repeat split; auto.
Qed.

(** X27. [extractEPUBText] is idempotent: a second call for the same bucket
    and the same views changes nothing. *)
Theorem extractEPUBText_idempotent (bookId : string) (contents : option (list (option string)))
    (positionKey now later : Z) (w : ExtractionWorld) :
  extractEPUBText bookId contents positionKey later
    (extractEPUBText bookId contents positionKey now w)
  = extractEPUBText bookId contents positionKey now w.
Proof.
  destruct contents as [entries|]; [|reflexivity].
  rewrite (extractEPUBText_closed_form bookId entries positionKey now w).
  rewrite extractEPUBText_closed_form. cbv zeta.
  destruct (firstMeaningful entries) as [body|]; [|reflexivity].
  destruct (setHas positionKey (extractedPagesRef w)) eqn:Ehas;
    cbn [store extractionQueueRef extractedPagesRef].
  - now rewrite Ehas.
  - now rewrite setHas_setAdd.
Qed.

(** *** More on the store and on the histories *)

Lemma addToChunks_first (chunk : BookContextChunk) (existing : list BookContextChunk) :
  exists pre m post,
    addToChunks chunk existing = pre ++ m :: post /\
    Forall (fun c => pageOrChapter c <> pageOrChapter chunk) pre /\
    pageOrChapter m = pageOrChapter chunk /\
    (String.length (text chunk) <= String.length (text m))%nat.
Proof.
  destruct (addToChunks_cases chunk existing)
    as [Hnew | (pre & old & post & -> & Hpre & Hold)].
  - rewrite addToChunks_new by assumption.
    set (l' := jsSort compareChunks (existing ++ [chunk])).
    assert (Hmem : forall x, In x l' -> In x existing \/ x = chunk).
    { intros x Hx. apply (Permutation_in _ (jsSort_perm compareChunks _)) in Hx.
      apply in_app_or in Hx as [Hx | [<- | []]]; auto. }
    assert (Hc : In chunk l').
    { apply (Permutation_in _ (Permutation_sym (jsSort_perm compareChunks _))).
      apply in_or_app. right. now left. }
    destruct (addToChunks_cases chunk l')
      as [Hnone | (pre & old & post & Hl' & Hpre & Hold)].
    + rewrite List.Forall_forall in Hnone. now destruct (Hnone chunk Hc).
    + assert (Hin : In old l') by (rewrite Hl'; apply in_or_app; right; now left).
      destruct (Hmem old Hin) as [Hex | ->].
      * rewrite List.Forall_forall in Hnew. now destruct (Hnew old Hex).
      * exists pre, chunk, post. repeat split; auto.
  - rewrite addToChunks_same by assumption.
    destruct (String.length (text old) <? String.length (text chunk))%nat eqn:E.
    + exists pre, chunk, post. repeat split; auto.
    + apply Nat.ltb_ge in E. exists pre, old, post. repeat split; auto.
Qed.

(** X28. Once a chunk has been added, adding another chunk with the same key
    whose text is not longer changes nothing, whatever its timestamp: a page
    extracted again with the same text leaves the store as it is. *)
Theorem addContextChunk_again_not_longer (state : BookContextState) (bookId : string)
    (chunk again : BookContextChunk) :
  pageOrChapter again = pageOrChapter chunk ->
  (String.length (text again) <= String.length (text chunk))%nat ->
  addContextChunk bookId again (addContextChunk bookId chunk state)
  = addContextChunk bookId chunk state.
Proof.
  intros Hkey Hlen.
  unfold addContextChunk at 1. rewrite chunksOf_addContextChunk.
  assert (Hsame : addToChunks again (addToChunks chunk (chunksOf state bookId))
                  = addToChunks chunk (chunksOf state bookId)).
  { destruct (addToChunks_first chunk (chunksOf state bookId))
      as (pre & m & post & E & Hpre & Hm & Hmlen).
    rewrite E. rewrite addToChunks_same; [| rewrite Hkey; exact Hpre | congruence].
    now replace (String.length (text m) <? String.length (text again))%nat with false
      by (symmetry; apply Nat.ltb_ge; lia). }
  rewrite Hsame. unfold addContextChunk. simpl. now rewrite insert_insert_eq.
Qed.

Lemma noEmptyMessage_same_history (a a' : AIAssistantState) :
  chatHistory a' = chatHistory a -> noEmptyMessage a -> noEmptyMessage a'.
Proof. unfold noEmptyMessage. intros ->. auto. Qed.

Lemma addMessage_noEmptyMessage (b : string) (m : Chat.ChatMessage) (a : AIAssistantState) :
  Chat.content m <> "" -> noEmptyMessage a -> noEmptyMessage (addMessage b m a).
Proof.
  intros Hm Ha b' l m'. unfold addMessage; simpl.
  destruct (decide (b = b')) as [->|Hne].
  - rewrite lookup_insert_eq. intros [= <-] Hin.
    apply in_app_or in Hin as [Hin | [<- | []]]; [|exact Hm].
    destruct (chatHistory a !! b') as [l0|] eqn:E; simpl in Hin; [|contradiction].
    now apply (Ha b' l0 m').
  - rewrite lookup_insert_ne by assumption. apply Ha.
Qed.

Lemma finalizeStreamingMessage_noEmptyMessage (b : string) (now : Z) (a : AIAssistantState) :
  noEmptyMessage a -> noEmptyMessage (finalizeStreamingMessage b now a).
Proof.
  intros Ha. unfold finalizeStreamingMessage.
  destruct (String.eqb (streamingResponse a) "") eqn:E; [assumption|].
  apply String.eqb_neq in E.
  eapply noEmptyMessage_same_history; [reflexivity|].
  now apply addMessage_noEmptyMessage.
Qed.

Lemma processLines_noEmptyMessage (b : string) (now : Z) (lines : list string)
    (a : AIAssistantState) :
  noEmptyMessage a -> noEmptyMessage (processLines b now lines a).
Proof.
  revert a. induction lines as [|line rest IH]; intros a Ha; cbn [processLines].
  - assumption.
  - destruct (startsWith "data: " line); [|now apply IH].
    destruct (String.eqb (sliceFrom 6 line) "[DONE]").
    + now apply finalizeStreamingMessage_noEmptyMessage.
    + destruct (parseContent (sliceFrom 6 line)) as [c|]; [|now apply IH].
      destruct (String.eqb c ""); apply IH; [assumption|].
      eapply noEmptyMessage_same_history; [reflexivity|assumption].
Qed.

Lemma chatStep_noEmptyMessage (opts : UseAIChatOptions) (w : ChatWorld) (s : ChatStep) :
  noEmptyMessage (ai w) -> noEmptyMessage (ai (chatStep opts w s)).
Proof.
  intros Hw. destruct s as [cap message position now|signal settled|signal settled now| |];
    cbn [chatStep].
  - unfold sendMessage.
    destruct (String.eqb (trim message) "") eqn:Em; [assumption|].
    destruct (capturedIsLoading cap); [assumption|]. cbn [orb].
    apply String.eqb_neq in Em.
    match goal with
    | |- context [withAI ?f (newAbortController ?w1)] =>
        assert (H3 : noEmptyMessage (ai (withAI f (newAbortController w1))))
    end.
    { simpl. eapply noEmptyMessage_same_history; [reflexivity|].
      apply addMessage_noEmptyMessage; [exact Em|].
      now destruct (abortControllerRef w). }
    match goal with |- context [if ?c then _ else _] => destruct c end; simpl.
    + eapply noEmptyMessage_same_history; [reflexivity|exact H3].
    + exact H3.
  - destruct settled as [[| |]|errorField|[| |]|[|]]; simpl;
      try (eapply noEmptyMessage_same_history; [reflexivity|exact Hw]); assumption.
  - destruct settled as [[| |]|decoded|]; simpl;
      try (eapply noEmptyMessage_same_history; [reflexivity|exact Hw]).
    + now apply processLines_noEmptyMessage.
    + destruct (String.eqb (streamingResponse (ai w)) ""); simpl.
      * eapply noEmptyMessage_same_history; [reflexivity|exact Hw].
      * eapply noEmptyMessage_same_history; [reflexivity|].
        now apply finalizeStreamingMessage_noEmptyMessage.
  - unfold cancelRequest. destruct (abortControllerRef w); [|assumption].
    eapply noEmptyMessage_same_history; [reflexivity|exact Hw].
  - intros b l m. unfold clear. simpl.
    destruct (decide (bookId opts = b)) as [->|Hne].
    + rewrite lookup_delete_eq. discriminate.
    + rewrite lookup_delete_ne by assumption. apply Hw.
Qed.

(** X29. In every run of the hook from the initial chat store, every message
    of every history has content that is not empty: a user message is the
    trimmed, non-blank input, an assistant message a non-empty buffer. *)
Theorem runChat_no_empty_message (opts : UseAIChatOptions) (books : BookContextState)
    (steps : list ChatStep) (b : string) (m : Chat.ChatMessage) :
  In m (getChatHistory (ai (runChat opts (initialChatWorld books) steps)) b) ->
  Chat.content m <> "".
Proof.
  assert (Hinv : forall w, noEmptyMessage (ai w) -> noEmptyMessage (ai (runChat opts w steps))).
  { unfold runChat. induction steps as [|s r IH]; intros w Hw; [exact Hw|].
    cbn [fold_left]. apply IH. now apply chatStep_noEmptyMessage. }
  specialize (Hinv (initialChatWorld books)).
  unfold getChatHistory. intros Hin.
  destruct (chatHistory (ai (runChat opts (initialChatWorld books) steps)) !! b)
    as [l|] eqn:E; simpl in Hin; [|contradiction].
  refine (Hinv _ b l m E Hin).
  intros b' l' m'. simpl. rewrite lookup_empty. discriminate.
Qed.

End MoreProperties.

(** ** The further properties on the scenarios *)

(** Pages 1 and 5 read, the bound moved from 1 to 5. *)
Lemma getFullContext_extends_witness :
  exists suffix,
    getFullContext (H := intHost)
      (runStore (H := intHost)
         [AddContextChunk "book" (numChunk 5 "b"); AddContextChunk "book" (numChunk 1 "a")])
      "book" (Some (Int 5))
    = (getFullContext (H := intHost)
         (runStore (H := intHost)
            [AddContextChunk "book" (numChunk 5 "b"); AddContextChunk "book" (numChunk 1 "a")])
         "book" (Some (Int 1)) ++ suffix)%string.
Proof.
  apply (getFullContext_extends (H := intHost)
           [AddContextChunk "book" (numChunk 5 "b"); AddContextChunk "book" (numChunk 1 "a")]
           "book" 1 5).
  lia.
Defined.

(** The buffer "Ishmael" finalized at time 7. *)
Lemma finalizeStreamingMessage_appends_witness :
  exists m,
    getChatHistory (finalizeStreamingMessage "book" 7 streamingIshmael) "book"
      = getChatHistory streamingIshmael "book" ++ [m] /\
    Chat.role m = Chat.assistant /\
    Chat.content m = streamingResponse streamingIshmael /\
    Chat.timestamp m = 7%Z /\
    isLoading (finalizeStreamingMessage "book" 7 streamingIshmael) = isLoading streamingIshmael /\
    error (finalizeStreamingMessage "book" 7 streamingIshmael) = error streamingIshmael.
Proof.
  apply (finalizeStreamingMessage_appends "book" 7 streamingIshmael).
  vm_compute. discriminate.
Defined.

(** A first question answered 500 with the body [null], and the question
    asked again. *)
Lemma failed_fetch_leaves_chat_usable_witness :
  let w := fst (sendMessage (H := intHost) bookOpts idleCallback "Who speaks?" None 1
                  (initialChatWorld onePageRead)) in
  let settled := ResponseNotOkThrows (TypeError "errorData is null") in
  let w1 := fst (resumeFetch 0 settled w) in
  let w2 := fst (sendMessage (H := intHost) bookOpts idleCallback "Who speaks?" None 2 w1) in
  snd (resumeFetch 0 settled w) = None /\
  isLoading (ai w1) = false /\
  abortControllerRef w1 = None /\
  chatHistory (ai w1) = chatHistory (ai w) /\
  streamingResponse (ai w1) = streamingResponse (ai w) /\
  fetched w1 = fetched w /\
  error (ai w1) = Some unreachableMessage /\
  getChatHistory (ai w2) "book"
    = getChatHistory (ai w) "book"
      ++ [{| Chat.id := "user-2"; Chat.role := Chat.user;
             Chat.content := "Who speaks?"; Chat.timestamp := 2 |}] /\
  aborted w2 = aborted w.
Proof.
  intros w settled w1 w2.
  apply (failed_fetch_leaves_chat_usable (H := intHost) bookOpts 0 settled w idleCallback
           "Who speaks?" None 2).
  - discriminate.
  - reflexivity.
  - vm_compute. discriminate.
Defined.

(** The first question on a book whose page 1 has been read. *)
Lemma sendMessage_request_witness :
  let w := initialChatWorld onePageRead in
  exists w' request userMessage,
    sendMessage (H := intHost) bookOpts idleCallback " Who speaks? " None 1 w
      = (w', Some (AwaitFetch (controllers w))) /\
    fetched w' = fetched w ++ [(request, controllers w)] /\
    abortControllerRef w' = Some (controllers w) /\
    Request.bookContext request
      = getFullContext (H := intHost) (books w) (bookId bookOpts)
          (Some (default (capturedPosition idleCallback) None)) /\
    Request.currentPosition request = default (capturedPosition idleCallback) None /\
    Request.message request = trim " Who speaks? " /\
    (length (Request.chatHistory request) <= 10)%nat /\
    last (Request.chatHistory request) = Some (Chat.user, trim " Who speaks? ") /\
    getChatHistory (ai w') (bookId bookOpts)
      = getChatHistory (ai w) (bookId bookOpts) ++ [userMessage] /\
    Chat.role userMessage = Chat.user /\
    Chat.content userMessage = trim " Who speaks? " /\
    Chat.id userMessage = ("user-" ++ pretty 1%Z)%string /\
    Chat.timestamp userMessage = 1%Z /\
    Request.chatHistory request
      = map (fun m => (Chat.role m, Chat.content m))
          (drop (length (getChatHistory (ai w) (bookId bookOpts) ++ [userMessage]) - 10)
             (getChatHistory (ai w) (bookId bookOpts) ++ [userMessage])) /\
    Request.bookTitle request = bookTitle bookOpts /\
    Request.bookAuthor request = bookAuthor bookOpts /\
    isLoading (ai w') = true /\
    error (ai w') = None /\
    streamingResponse (ai w') = "".
Proof.
  intros w.
  apply (sendMessage_request (H := intHost) bookOpts idleCallback " Who speaks? " None 1 w).
  - vm_compute. discriminate.
  - reflexivity.
  - vm_compute. discriminate.
Defined.

(** The relay on a provider that ends with [[DONE]], with a line after it in
    the same value, and on one whose body just ends; each line is taken to be
    its own delta, and a token its own serialization. *)
Example relay_with_and_without_done :
  let withDone :=
    relay Some (fun c => c) true
      [ProviderValue ("data: Ish" ++ nl ++ "data: [DONE]" ++ nl ++ "data: mael")%string;
       ProviderDone] in
  let withoutDone :=
    relay Some (fun c => c) true [ProviderValue "data: Ish"; ProviderDone] in
  enqueueCalls withDone = [contentChunk (fun c => c) "Ish"; doneChunk] /\
  closeCalls withDone = 2%nat /\ thrown withDone = true /\
  enqueueCalls withoutDone = [contentChunk (fun c => c) "Ish"] /\
  closeCalls withoutDone = 1%nat /\ thrown withoutDone = false /\
  returned withoutDone = true.
Proof. vm_compute. repeat split. Qed.

(** Two tokens in one value. *)
Lemma processLines_appends_to_buffer_witness :
  exists added,
    streamingResponse
      (processLines (H := intHost) "book" 2 ["data: Ish"; "data: mael"] streamingIshmael)
      = (streamingResponse streamingIshmael ++ added)%string /\
    chatHistory (processLines (H := intHost) "book" 2 ["data: Ish"; "data: mael"] streamingIshmael)
      = chatHistory streamingIshmael /\
    isLoading (processLines (H := intHost) "book" 2 ["data: Ish"; "data: mael"] streamingIshmael)
      = isLoading streamingIshmael /\
    error (processLines (H := intHost) "book" 2 ["data: Ish"; "data: mael"] streamingIshmael)
      = error streamingIshmael.
Proof.
  apply (processLines_appends_to_buffer (H := intHost) "book" 2
           ["data: Ish"; "data: mael"] streamingIshmael).
  vm_compute. reflexivity.
Defined.

(** The panel at position 0, on a book whose page 1 has been read. *)
Lemma handleSendMessage_sends_witness :
  handleSendMessage (H := intHost) bookOpts idleCallback " Who speaks? " (Int 0) 1
    (initialChatWorld onePageRead)
  = ("", sendMessage (H := intHost) bookOpts idleCallback " Who speaks? "
           (Some (capturedPosition idleCallback)) 1 (initialChatWorld onePageRead)).
Proof.
  apply (handleSendMessage_sends (H := intHost) bookOpts idleCallback " Who speaks? " (Int 0) 1
           (initialChatWorld onePageRead)).
  - vm_compute. discriminate.
  - reflexivity.
Defined.

(** A token with no line feed, on a host whose serialization is the token
    itself. *)
Lemma relay_chunk_read_by_hook_witness :
  processLines (H := intHost) "book" 2
    (nonBlankLines (contentChunk (fun c => c) "Hi")) initialAIAssistantState
    = appendStreamingResponse "Hi" initialAIAssistantState /\
  processLines (H := intHost) "book" 2 (nonBlankLines doneChunk) initialAIAssistantState
    = finalizeStreamingMessage "book" 2 initialAIAssistantState.
Proof.
  apply (relay_chunk_read_by_hook (H := intHost) (fun c => c) "book" 2 "Hi"
           initialAIAssistantState).
  - discriminate.
  - reflexivity.
  - discriminate.
  - reflexivity.
Defined.

(** The extraction of [coverDoc] up to page 5. *)
Lemma runExtraction_position_not_beyond_witness :
  match afterPage5 with
  | Some w' =>
      currentPosition (store w') = maxExtractedPage (extractedPagesRef w') 5 /\
      match currentPosition (store w') with
      | Int m => (m <= 5)%Z /\ (m = 5%Z \/ In m (extractedPagesRef w'))
      | NegInfinity => extractedPagesRef w' <> []
      end /\
      (In 5%Z (extractedPagesRef w') -> currentPosition (store w') = Int 5)
  | None => False
  end.
Proof.
  unfold afterPage5.
  destruct (runExtraction (H := intHost) coverDoc "book" 5 (inPageOrder 5)
              (initializeContext "book" initialExtractionWorld)) as [w'|] eqn:E.
  - exact (runExtraction_position_not_beyond (H := intHost) coverDoc "book" 5 (inPageOrder 5)
             (initializeContext "book" initialExtractionWorld) w' E).
  - vm_compute in E. discriminate.
Defined.

(** Page 1 of [coverDoc], which is blank, after its text has come back. *)
Lemma unread_page_is_requested_again_witness :
  let w' := extractPDFPageTextResume (H := intHost) "book" blankPage 1 0
              initialExtractionWorld in
  store w' = store initialExtractionWorld /\
  extractedPagesRef w' = extractedPagesRef initialExtractionWorld /\
  setHas 1 (extractionQueueRef w') = false /\
  In 1%Z (map fst (extractionPromises (extractPDFPagesUpTo 3 w'))).
Proof.
  apply (unread_page_is_requested_again (H := intHost) "book" blankPage 1 0 3
           initialExtractionWorld).
  - vm_compute. reflexivity.
  - reflexivity.
  - lia.
Defined.

(** The hook before any extraction: no page is marked extracted. *)
Lemma extracted_pages_have_chunks_witness :
  (forall w', runExtraction (H := intHost) coverDoc "book" 5 (inPageOrder 5)
                initialExtractionWorld = Some w' ->
              extractedHaveChunks "book" w') /\
  extractedHaveChunks "book"
    (extractEPUBText (H := intHost) "book" (Some [Some "short"]) 12 0 initialExtractionWorld).
Proof.
  apply (extracted_pages_have_chunks (H := intHost) coverDoc "book" 5 (inPageOrder 5)
           (Some [Some "short"]) 12 0 initialExtractionWorld).
  intros i Hi. simpl in Hi. contradiction.
Defined.

(** Page 3 extracted as "abcdef", then again as "abc" at a later time. *)
Lemma addContextChunk_again_not_longer_witness :
  addContextChunk (H := intHost) "book"
    {| pageOrChapter := PageNum 3; text := "abc"; timestamp := 9 |}
    (addContextChunk (H := intHost) "book" (numChunk 3 "abcdef") initialBookContextState)
  = addContextChunk (H := intHost) "book" (numChunk 3 "abcdef") initialBookContextState.
Proof.
  apply (addContextChunk_again_not_longer (H := intHost) initialBookContextState "book"
           (numChunk 3 "abcdef")
           {| pageOrChapter := PageNum 3; text := "abc"; timestamp := 9 |}).
  - reflexivity.
  - vm_compute. lia.
Defined.

(** The user message of a completed run. *)
Lemma runChat_no_empty_message_witness :
  Chat.content whoSpeaks <> "".
Proof.
  apply (runChat_no_empty_message (H := intHost) bookOpts onePageRead completedRun "book"
           whoSpeaks).
  vm_compute. left. reflexivity.
Defined.
